(** * Loyalty engine: calendar arithmetic, visit aggregation, rule set,
      tier classifier and ranking report

    A shallow embedding of [strategies.py], [repositories.py], [config.py],
    [models.py], [report.py], [engine.py] and the pure parts of [main.py]
    (the order and the loop of the rule editor, [ensure_engine],
    [ensure_csv_filename]), with the properties of the rule-evaluation
    and windowed-visit-aggregation engine proved over it.

    Conventions of the embedding:
    - Python [int] is [Z]; [//] and [%] with a positive divisor are [Z.div]
      and [Z.modulo] (both floor).
    - Python exceptions are values of [exn]; a function that may raise returns
      [res A], and statements are sequenced with stdpp's [x ← e; k].
    - [datetime.date] and [datetime.datetime] are records of their fields; the
      checks of their constructors ([MINYEAR <= year <= MAXYEAR], the month
      and the day ranges) are written out in [new_date].  All datetimes are
      naive (no [tzinfo]), as are all datetimes the program builds.
    - a [dict] read only through [get] is a [gmap]; the [dict] returned by
      [visits_by_month], whose key order is observable, is an association
      list in insertion order; a [set] is a [gset].
    - the CSV file is what [csv.DictReader] presents: the header and the
      rows, a field a short row lacks being [None]; [str.strip], [str.lower],
      [datetime.strptime] and [int] are variables of the sections that use
      them; the answers typed into the rule editor are a list, one element
      per turn of its loop. *)

From Equations Require Import Equations.
From stdpp Require Import gmap strings list fin_maps fin_sets.
From Stdlib Require Import ZArith Lia Sorting.Sorted Sorting.Permutation.

Local Open Scope Z_scope.

(** ** Exceptions and results *)

Inductive exn : Type := ValueError | IndexError.

Inductive res (A : Type) : Type :=
  | Ok (a : A)
  | Raise (e : exn).
Arguments Ok {A} a.
Arguments Raise {A} e.

#[global] Instance res_ret : MRet res := @Ok.
#[global] Instance res_bind : MBind res := fun A B f m =>
  match m with
  | Ok a => f a
  | Raise e => Raise e
  end.

(** [l[i]] on a Python list: a negative index counts from the end, and an
    index out of range raises [IndexError]. *)
Definition py_index {A} (l : list A) (i : Z) : res A :=
  let n := Z.of_nat (length l) in
  let j := if i <? 0 then i + n else i in
  if (0 <=? j) && (j <? n)
  then match l !! Z.to_nat j with
       | Some x => Ok x
       | None => Raise IndexError
       end
  else Raise IndexError.

(** ** [datetime.date] *)

Module Calendar.

Record date : Type := Date { year : Z; month : Z; day : Z }.

Definition MINYEAR : Z := 1.
Definition MAXYEAR : Z := 9999.

(** [datetime._is_leap] *)
Definition is_leap (y : Z) : bool :=
  (y mod 4 =? 0) && (negb (y mod 100 =? 0) || (y mod 400 =? 0)).

(** [datetime._days_in_month] *)
Definition days_in_month (y m : Z) : Z :=
  if (m =? 2) && is_leap y then 29
  else nth (Z.to_nat m) [-1; 31; 28; 31; 30; 31; 30; 31; 31; 30; 31; 30; 31] (-1).

(** The constructor [date(y, m, d)], with the three range checks of
    [datetime._check_date_fields]. *)
Definition new_date (y m d : Z) : res date :=
  if negb ((MINYEAR <=? y) && (y <=? MAXYEAR)) then Raise ValueError
  else if negb ((1 <=? m) && (m <=? 12)) then Raise ValueError
  else if negb ((1 <=? d) && (d <=? days_in_month y m)) then Raise ValueError
  else Ok (Date y m d).

(** The dates that exist as [datetime.date] objects. *)
Definition valid_date (d : date) : Prop :=
  new_date (year d) (month d) (day d) = Ok d.

(** [d.replace(day=n)] *)
Definition replace_day (d : date) (n : Z) : res date :=
  new_date (year d) (month d) n.

(** The table both [months_ago] and [add_months] build inline:
    [[31, 29 if y % 4 == 0 and (y % 100 != 0 or y % 400 == 0) else 28, 31,
      30, 31, 30, 31, 31, 30, 31, 30, 31]]. *)
Definition month_table (y : Z) : list Z :=
  [31;
   if (y mod 4 =? 0) && (negb (y mod 100 =? 0) || (y mod 400 =? 0))
   then 29 else 28;
   31; 30; 31; 30; 31; 31; 30; 31; 30; 31].

(** The loop of [months_ago]:
    [while m <= 0: m += 12; y -= 1]. *)
Equations? months_ago_loop (y m : Z) : Z * Z by wf (Z.to_nat (1 - m)) lt :=
  months_ago_loop y m with Z_le_dec m 0 := {
    | left _ => months_ago_loop (y - 1) (m + 12)
    | right _ => (y, m) }.
Proof. lia. Qed.

(** [strategies.months_ago] *)
Definition months_ago (as_of : date) (months : Z) : res date :=
  let '(y, m) := months_ago_loop (year as_of) (month as_of - months) in
  dim ← py_index (month_table y) (m - 1);
  new_date y m (Z.min (day as_of) dim).

(** The local function [add_months] of [visits_by_month]. *)
Definition add_months (d : date) (m : Z) : res date :=
  let y := year d + (month d - 1 + m) / 12 in
  let m2 := (month d - 1 + m) mod 12 + 1 in
  dim ← py_index (month_table y) (m2 - 1);
  new_date y m2 (Z.min (day d) dim).

(** *** Specification side *)

(** The leap-year rule in words: divisible by 4, except centuries unless
    divisible by 400. *)
Definition leap_year (y : Z) : Prop :=
  y mod 4 = 0 /\ (y mod 100 <> 0 \/ y mod 400 = 0).

(** Number of the month [(y, m)] counted from January of year 0. *)
Definition month_index (y m : Z) : Z := 12 * y + (m - 1).

End Calendar.
Import Calendar.

#[global] Instance date_eq_dec : EqDecision date.
Proof. solve_decision. Defined.

#[global] Instance date_countable : Countable date :=
  inj_countable' (fun d => (year d, month d, day d))
                 (fun t => Date t.1.1 t.1.2 t.2)
                 (fun d => match d with Date _ _ _ => eq_refl end).

(** ** [datetime.time] and [datetime.datetime] *)

Module Clock.

Record time : Type :=
  Time { hour : Z; minute : Z; second : Z; microsecond : Z }.

Record datetime : Type := DateTime { date_of : date; time_of : time }.

(** [datetime.min.time()] and [datetime.max.time()] *)
Definition time_min : time := Time 0 0 0 0.
Definition time_max : time := Time 23 59 59 999999.

(** [datetime.combine(d, t)] *)
Definition combine (d : date) (t : time) : datetime := DateTime d t.

(** [dt.replace(hour=h, minute=m, second=s)]: the other fields, the
    microsecond among them, are kept. *)
Definition replace_hms (x : datetime) (h m s : Z) : datetime :=
  DateTime (date_of x) (Time h m s (microsecond (time_of x))).

Definition valid_time (t : time) : Prop :=
  0 <= hour t < 24 /\ 0 <= minute t < 60 /\ 0 <= second t < 60 /\
  0 <= microsecond t < 1000000.

(** The datetimes that exist as [datetime.datetime] objects. *)
Definition valid_datetime (x : datetime) : Prop :=
  valid_date (date_of x) /\ valid_time (time_of x).

(** Naive datetimes compare as the tuples
    [(year, month, day, hour, minute, second, microsecond)]. *)
Definition fields (x : datetime) : list Z :=
  [year (date_of x); month (date_of x); day (date_of x);
   hour (time_of x); minute (time_of x); second (time_of x);
   microsecond (time_of x)].

Fixpoint lex_compare (a b : list Z) : comparison :=
  match a, b with
  | [], [] => Eq
  | [], _ :: _ => Lt
  | _ :: _, [] => Gt
  | x :: a', y :: b' =>
      match x ?= y with
      | Eq => lex_compare a' b'
      | c => c
      end
  end.

(** [a <= b] and [a < b] on datetimes *)
Definition dt_le (a b : datetime) : bool :=
  match lex_compare (fields a) (fields b) with Gt => false | _ => true end.
Definition dt_lt (a b : datetime) : bool :=
  match lex_compare (fields a) (fields b) with Lt => true | _ => false end.

End Clock.
Import Clock.

(** ** [models.py] *)

Record LoyaltyTier : Type := { tier_name : string; priority : Z }.

Module LoyaltyRule.
Record t : Type :=
  { min_visits : Z; window_months : Z; resulting_tier : LoyaltyTier }.

(** [return visits_in_window >= self.min_visits] *)
Definition applies (self : t) (visits_in_window : Z) : bool :=
  visits_in_window >=? min_visits self.
End LoyaltyRule.

Module Customer.
Record t : Type :=
  { id : string; name : string; email : string; phone : string }.
End Customer.

Module Reservation.
Record t : Type :=
  { id : string; customer_id : string; dt : datetime; party_size : Z }.
End Reservation.

(** ** [repositories.py] *)

(** The abstract base [VisitRepository]: a subclass supplies
    [get_reservations]; [count_visits] and [visits_by_month] are defined on
    the base class in terms of it. *)
Class VisitRepository (R : Type) : Type :=
  get_reservations : R -> list Reservation.t.

(** An insertion-ordered [dict] as an association list. [dict_set d k v] is
    [d[k] = v]: an existing key keeps its place. *)
Fixpoint dict_set {K V} `{EqDecision K} (d : list (K * V)) (k : K) (v : V)
  : list (K * V) :=
  match d with
  | [] => [(k, v)]
  | (k', v') :: d' =>
      if decide (k' = k) then (k', v) :: d' else (k', v') :: dict_set d' k v
  end.

Definition dict_get {K V} `{EqDecision K} (d : list (K * V)) (k : K)
  : option V :=
  snd <$> List.find (fun kv => bool_decide (kv.1 = k)) d.

Definition dict_values {K V} (d : list (K * V)) : list V := snd <$> d.

Section VisitRepository.
Context {R : Type} `{VisitRepository R}.

(** The condition of the comprehension in [count_visits]:
    [r.customer_id == customer_id and start_dt <= r.dt <= end_dt]. *)
Definition matches (customer_id : string) (start_dt end_dt : datetime)
    (r : Reservation.t) : bool :=
  bool_decide (Reservation.customer_id r = customer_id)
  && (dt_le start_dt (Reservation.dt r) && dt_le (Reservation.dt r) end_dt).

Definition count_visits (self : R) (customer_id : string)
    (start_dt end_dt : datetime) (unique_per_day : bool) : Z :=
  let res := List.filter (matches customer_id start_dt end_dt)
                         (get_reservations self) in
  if unique_per_day then
    let days : gset date :=
      list_to_set ((fun r => date_of (Reservation.dt r)) <$> res) in
    Z.of_nat (size days)
  else Z.of_nat (length res).

(** One iteration of the counting loop of [visits_by_month];
    [counts[key] += 1] on a [defaultdict(int)]. *)
Definition count_step (customer_id : string) (start_dt end_dt : datetime)
    (counts : gmap (Z * Z) Z) (r : Reservation.t) : gmap (Z * Z) Z :=
  if negb (bool_decide (Reservation.customer_id r = customer_id))
  then counts
  else if dt_le start_dt (Reservation.dt r)
          && dt_le (Reservation.dt r) end_dt
  then let key := (year (date_of (Reservation.dt r)),
                   month (date_of (Reservation.dt r))) in
       <[key := default 0 (counts !! key) + 1]> counts
  else counts.

(** The zero-filling loop [for _ in range(months)], run [n] times. *)
Fixpoint fill_months (n : nat) (counts : gmap (Z * Z) Z)
    (out : list ((Z * Z) * Z)) (cur : date) : res (list ((Z * Z) * Z)) :=
  match n with
  | O => Ok out
  | S n' =>
      let key := (year cur, month cur) in
      let out' := dict_set out key (default 0 (counts !! key)) in
      cur' ← add_months cur 1;
      fill_months n' counts out' cur'
  end.

Definition visits_by_month (self : R) (customer_id : string) (months : Z)
    (as_of : date) : res (list ((Z * Z) * Z)) :=
  first ← replace_day as_of 1;
  start_month ← add_months first (- (months - 1));
  let end_dt := replace_hms (combine as_of time_min) 23 59 59 in
  let start_dt := combine start_month time_min in
  let counts :=
    foldl (count_step customer_id start_dt end_dt) ∅
          (get_reservations self) in
  fill_months (Z.to_nat months) counts [] start_month.
End VisitRepository.

(** [CsvVisitRepository] once loaded: the reservations in file order and the
    customers in order of first appearance. *)
Record CsvVisitRepository : Type :=
  { _reservations : list Reservation.t;
    _customers : list (string * Customer.t) }.

#[global] Instance csv_visit_repository : VisitRepository CsvVisitRepository :=
  _reservations.

Module InMemoryCustomerRepository.
Record t : Type := { customers : list (string * Customer.t) }.

(** [self._customers.get(cid)] *)
Definition find_by_id (self : t) (cid : string) : option Customer.t :=
  dict_get (customers self) cid.

(** [list(self._customers.values())] *)
Definition find_all (self : t) : list Customer.t :=
  dict_values (customers self).
End InMemoryCustomerRepository.

(** ** Python's stable sort *)

(** [sorted(l, key=key, reverse=reverse)] and [l.sort(key=key)]: the sort
    compares keys with [<] only and is stable, also under [reverse=True]
    (elements with equal keys keep their original order).  A stable sort has
    one possible result, which insertion from the right computes: an element
    goes in front of the first later element that does not have to precede
    it. *)
Section PySort.
Context {A K : Type} (lt : K -> K -> bool) (key : A -> K) (reverse : bool).

(** [y], which comes later in the input, has to precede [x]. *)
Definition precedes (y x : A) : bool :=
  if reverse then lt (key x) (key y) else lt (key y) (key x).

Fixpoint sort_insert (x : A) (l : list A) : list A :=
  match l with
  | [] => [x]
  | y :: l' => if precedes y x then y :: sort_insert x l' else x :: l
  end.

Definition py_sorted (l : list A) : list A := foldr sort_insert [] l.

(** Two neighbours of the output: the second does not have to precede the
    first. *)
Definition in_order (a b : A) : Prop := precedes b a = false.
End PySort.

(** [<] on the tuples [(int, str)]: the first components that differ
    decide. *)
Definition key_lt (a b : Z * string) : bool :=
  if a.1 =? b.1 then String.ltb a.2 b.2 else a.1 <? b.1.

(** ** [config.py] *)

Module Config.
Record t : Type := { rules : list LoyaltyRule.t }.

(** [__init__]: the default rules *)
Definition init : t :=
  {| rules :=
       [ LoyaltyRule.Build_t 4 3 {| tier_name := "Super VIP"; priority := 2 |};
         LoyaltyRule.Build_t 2 3 {| tier_name := "VIP"; priority := 1 |} ] |}.

(** [self.rules = sorted(rules, key=lambda r: r.min_visits, reverse=True)] *)
Definition set_rules (self : t) (new_rules : list LoyaltyRule.t) : t :=
  {| rules := py_sorted Z.ltb LoyaltyRule.min_visits true new_rules |}.

(** [return list(self.rules)] *)
Definition get_rules (self : t) : list LoyaltyRule.t := rules self.
End Config.

(** ** [strategies.py] *)

Module VisitsInWindowStrategy.
Record t : Type :=
  { rules_desc : list LoyaltyRule.t;
    window_months : Z;
    unique_per_day : bool }.

(** The baseline tier [LoyaltyTier("Regular", 0)] *)
Definition regular : LoyaltyTier := {| tier_name := "Regular"; priority := 0 |}.

(** The loop [for r in self.rules_desc] with its [continue] and early
    [return], and the fall-through to the baseline tier. *)
Fixpoint apply_rules (window : Z) (count : Z) (rs : list LoyaltyRule.t)
  : LoyaltyTier :=
  match rs with
  | [] => regular
  | r :: rs' =>
      if negb (LoyaltyRule.window_months r =? window)
      then apply_rules window count rs'
      else if LoyaltyRule.applies r count
      then LoyaltyRule.resulting_tier r
      else apply_rules window count rs'
  end.

Definition classify {R} `{VisitRepository R} (self : t)
    (customer : Customer.t) (as_of : date) (visits : R) : res LoyaltyTier :=
  start_date ← months_ago as_of (window_months self);
  let start_dt := combine start_date time_min in
  let end_dt := combine as_of time_max in
  let count := count_visits visits (Customer.id customer) start_dt end_dt
                            (unique_per_day self) in
  Ok (apply_rules (window_months self) count (rules_desc self)).
End VisitsInWindowStrategy.

(** ** [report.py] *)

Module ReportService.
Section ReportService.
Context {R : Type} `{VisitRepository R}.
(** [str.lower] *)
Variable lower : string -> string.

Record t : Type :=
  { repo : R; customers : InMemoryCustomerRepository.t }.

(** [lambda x: (-x[1], x[0].name.lower())] *)
Definition ranking_key (x : Customer.t * Z) : Z * string :=
  (- x.2, lower (Customer.name x.1)).

Definition ranking_top_customers (self : t) (months : Z) (as_of : date)
  : res (list (Customer.t * Z)) :=
  start_date ← months_ago as_of months;
  let start_dt := combine start_date time_min in
  let end_dt := combine as_of time_max in
  let rows :=
    (fun c => (c, count_visits (repo self) (Customer.id c)
                               start_dt end_dt true))
      <$> InMemoryCustomerRepository.find_all (customers self) in
  Ok (py_sorted key_lt ranking_key false rows).
End ReportService.
Arguments t R : clear implicits.
End ReportService.

(** ** Specification-side definitions *)

(** The month with index [i], as the key [(year, month)] of
    [visits_by_month]. *)
Definition month_key (i : Z) : Z * Z := (i / 12, i mod 12 + 1).

(** The [n] consecutive months from index [s] on, ascending. *)
Definition month_keys (s : Z) (n : nat) : list (Z * Z) :=
  (fun i => month_key (s + Z.of_nat i)) <$> seq 0 n.

(** Last day of a month by the rule in words. *)
Definition last_day (y m : Z) : Z :=
  if bool_decide (m = 2) then (if decide (leap_year y) then 29 else 28)
  else if bool_decide (m ∈ [4; 6; 9; 11]) then 30 else 31.

(** The first rule of [rs], in order, that is for the window [window] and
    whose threshold [count] reaches. *)
Definition first_applicable (window count : Z) (rs : list LoyaltyRule.t)
  : option LoyaltyRule.t :=
  List.find (fun r => bool_decide (LoyaltyRule.min_visits r <= count))
            (List.filter (fun r => bool_decide (LoyaltyRule.window_months r = window)) rs).

Definition sum_values (d : list ((Z * Z) * Z)) : Z :=
  foldr Z.add 0 (dict_values d).

(** Lower-casing of the ASCII letters, an instance of [str.lower] on ASCII
    names. *)
Fixpoint ascii_lower (s : string) : string :=
  match s with
  | EmptyString => EmptyString
  | String c s' =>
      let n := Ascii.N_of_ascii c in
      String (if ((65 <=? n) && (n <=? 90))%N
              then Ascii.ascii_of_N (n + 32) else c)
             (ascii_lower s')
  end.

(** An event of the customer [cid] inside the inclusive range
    [[start_dt, end_dt]]. *)
Definition in_range (cid : string) (start_dt end_dt : datetime)
    (r : Reservation.t) : Prop :=
  Reservation.customer_id r = cid /\
  dt_le start_dt (Reservation.dt r) = true /\
  dt_le (Reservation.dt r) end_dt = true.

#[global] Instance in_range_dec cid start_dt end_dt r :
  Decision (in_range cid start_dt end_dt r).
Proof. unfold in_range. apply _. Defined.

Definition super_vip : LoyaltyTier := {| tier_name := "Super VIP"; priority := 2 |}.
Definition vip : LoyaltyTier := {| tier_name := "VIP"; priority := 1 |}.

(** The tier the claim describes: that of the first applicable rule, the
    baseline tier when there is none. *)
Definition expected_tier (window count : Z) (rs : list LoyaltyRule.t)
  : LoyaltyTier :=
  match first_applicable window count rs with
  | Some r => LoyaltyRule.resulting_tier r
  | None => VisitsInWindowStrategy.regular
  end.

(** The order the claim gives for two consecutive ranking entries. *)
Definition ranked (lower : string -> string) (x y : Customer.t * Z) : Prop :=
  x.2 > y.2 \/
  (x.2 = y.2 /\
   String.leb (lower (Customer.name x.1)) (lower (Customer.name y.1)) = true).

(** The first day of the month with index [i]. *)
Definition first_of_month (i : Z) : date := Date (i / 12) (i mod 12 + 1) 1.

(** The key [(r.dt.year, r.dt.month)] of an event. *)
Definition month_of (r : Reservation.t) : Z * Z :=
  (year (date_of (Reservation.dt r)), month (date_of (Reservation.dt r))).

(** Number of events of [l], repetitions included, that are in range and
    fall in the month [k]. *)
Definition month_count (cid : string) (start_dt end_dt : datetime)
    (l : list Reservation.t) (k : Z * Z) : Z :=
  Z.of_nat (length (filter (fun r => in_range cid start_dt end_dt r /\ month_of r = k) l)).

(** Index of December 9999, the last month of [date]. *)
Definition last_month_index : Z := month_index MAXYEAR 12.

(** ** Sample data *)

Definition visit (rid cid : string) (y m d hh mi ss us : Z) : Reservation.t :=
  Reservation.Build_t rid cid (DateTime (Date y m d) (Time hh mi ss us)) 2.

Definition ana : Customer.t := Customer.Build_t "C001" "ana Lopez" "ana@example.com" "999".
Definition bea : Customer.t := Customer.Build_t "C002" "Bea Diaz" "bea@example.com" "998".
Definition abel : Customer.t := Customer.Build_t "C003" "Abel Ruiz" "abel@example.com" "997".

Definition sample_repo : CsvVisitRepository :=
  {| _reservations :=
       [ visit "R1" "C001" 2025 1 10 20 0 0 0;
         visit "R2" "C001" 2025 1 10 21 30 0 0;
         visit "R3" "C001" 2025 2 14 13 0 0 0;
         visit "R4" "C002" 2025 2 20 19 0 0 0;
         visit "R5" "C001" 2025 3 1 12 0 0 0;
         visit "R6" "C001" 2025 3 15 23 59 0 0;
         visit "R7" "C002" 2025 3 16 9 0 0 0;
         visit "R8" "C001" 2024 12 14 20 0 0 0;
         visit "R9" "C003" 2025 3 2 20 0 0 0 ];
     _customers := [("C001", ana); ("C002", bea); ("C003", abel)] |}.

Definition default_strategy : VisitsInWindowStrategy.t :=
  VisitsInWindowStrategy.Build_t (Config.rules Config.init) 3 true.

Definition empty_strategy : VisitsInWindowStrategy.t :=
  VisitsInWindowStrategy.Build_t [] 3 true.

Definition sample_report : ReportService.t CsvVisitRepository :=
  {| ReportService.repo := sample_repo;
     ReportService.customers :=
       InMemoryCustomerRepository.Build_t (_customers sample_repo) |}.

Definition rule_vip2 : LoyaltyRule.t :=
  LoyaltyRule.Build_t 2 3 {| tier_name := "VIP"; priority := 1 |}.
Definition rule_gold2 : LoyaltyRule.t :=
  LoyaltyRule.Build_t 2 3 {| tier_name := "Gold"; priority := 3 |}.
Definition rule_super4 : LoyaltyRule.t :=
  LoyaltyRule.Build_t 4 3 {| tier_name := "Super VIP"; priority := 2 |}.

(** A visit in the last second of a day. *)
Definition late_visit : Reservation.t :=
  visit "R1" "C001" 2025 3 15 23 59 59 500000.

Definition late_repo : CsvVisitRepository :=
  {| _reservations := [late_visit]; _customers := [("C001", ana)] |}.

(** ** [engine.py] *)

(** The interface [RuleStrategy]: a strategy supplies [classify]. *)
Class RuleStrategy (S : Type) : Type :=
  strategy_classify :
    forall {R : Type} `{VisitRepository R},
      S -> Customer.t -> date -> R -> res LoyaltyTier.

#[global] Instance visits_in_window_strategy :
  RuleStrategy VisitsInWindowStrategy.t :=
  fun R H => @VisitsInWindowStrategy.classify R H.

Module LoyaltyEngine.
Section LoyaltyEngine.
Context {S R : Type} `{RuleStrategy S} `{VisitRepository R}.

Record t : Type :=
  { strategy : S; repo : R; customers : InMemoryCustomerRepository.t }.

(** [return self.strategy.classify(customer, as_of, self.repo)] *)
Definition classify (self : t) (customer : Customer.t) (as_of : date)
  : res LoyaltyTier :=
  strategy_classify (strategy self) customer as_of (repo self).

(** The loop [for c in self.customers.find_all(): out[c.id] = ...]. *)
Fixpoint classify_each (self : t) (as_of : date) (cs : list Customer.t)
    (out : list (string * LoyaltyTier)) : res (list (string * LoyaltyTier)) :=
  match cs with
  | [] => Ok out
  | c :: cs' =>
      tier ← classify self c as_of;
      classify_each self as_of cs' (dict_set out (Customer.id c) tier)
  end.

Definition classify_all (self : t) (as_of : date)
  : res (list (string * LoyaltyTier)) :=
  classify_each self as_of
    (InMemoryCustomerRepository.find_all (customers self)) [].
End LoyaltyEngine.
Arguments t S R : clear implicits.
End LoyaltyEngine.

(** ** [main.py]: the order of the rule editor *)

(** [<] on the tuples [(int, int)]. *)
Definition pair_lt (a b : Z * Z) : bool :=
  if a.1 =? b.1 then a.2 <? b.2 else a.1 <? b.1.

(** [lambda r: (r.resulting_tier.priority, r.min_visits)] *)
Definition editor_key (r : LoyaltyRule.t) : Z * Z :=
  (priority (LoyaltyRule.resulting_tier r), LoyaltyRule.min_visits r).

(** [work.sort(key=lambda r: (r.resulting_tier.priority, r.min_visits),
    reverse=True)] of [configure_rules]. *)
Definition editor_sort (work : list LoyaltyRule.t) : list LoyaltyRule.t :=
  py_sorted pair_lt editor_key true work.

(** ** [main.py]: the rule editor *)

(** What the user answers during one turn of the [while True] loop of
    [configure_rules]: the option chosen and, for the options that ask for
    more, the index typed ([None] when [int] raises ValueError on it) and
    what [rule_wizard] returns ([None] when it is cancelled), for an edit as
    a function of the rule it is started with. The answers of a turn that
    the code does not ask for are not looked at. *)
Inductive editor_turn : Type :=
| TurnNew (wizard : option LoyaltyRule.t)
| TurnEdit (idx : option Z) (wizard : LoyaltyRule.t -> option LoyaltyRule.t)
| TurnDelete (idx : option Z)
| TurnSave
| TurnCancel
| TurnOther.

(** [not (1 <= idx <= len(work))], negated. *)
Definition index_ok (idx : Z) (work : list LoyaltyRule.t) : bool :=
  (1 <=? idx) && (idx <=? Z.of_nat (length work)).

(** The loop of [configure_rules] on the local copy [work]; [None] when the
    answers end before the editor is left. *)
Fixpoint configure_loop (turns : list editor_turn) (cfg : Config.t)
    (work : list LoyaltyRule.t) : option Config.t :=
  match turns with
  | [] => None
  | turn :: turns' =>
      match turn with
      | TurnNew None => configure_loop turns' cfg work
      | TurnNew (Some new_rule) =>
          configure_loop turns' cfg (editor_sort (work ++ [new_rule]))
      | TurnEdit idx wizard =>
          match work, idx with
          | [], _ => configure_loop turns' cfg work
          | _, None => configure_loop turns' cfg work
          | _, Some i =>
              if negb (index_ok i work) then configure_loop turns' cfg work
              else
                match work !! Z.to_nat (i - 1) with
                | None => configure_loop turns' cfg work
                | Some existing =>
                    match wizard existing with
                    | Some edited =>
                        configure_loop turns' cfg
                          (editor_sort (<[Z.to_nat (i - 1) := edited]> work))
                    | None => configure_loop turns' cfg work
                    end
                end
          end
      | TurnDelete idx =>
          match work, idx with
          | [], _ => configure_loop turns' cfg work
          | _, None => configure_loop turns' cfg work
          | _, Some i =>
              if negb (index_ok i work) then configure_loop turns' cfg work
              else configure_loop turns' cfg (delete (Z.to_nat (i - 1)) work)
          end
      | TurnSave =>
          match work with
          | [] => configure_loop turns' cfg work
          | _ => Some (Config.set_rules cfg work)
          end
      | TurnCancel => Some cfg
      | TurnOther => configure_loop turns' cfg work
      end
  end.

Definition configure_rules (cfg : Config.t) (turns : list editor_turn)
  : option Config.t :=
  configure_loop turns cfg (Config.get_rules cfg).

(** What [Config] holds after [__init__] and keeps from then on: at least
    one rule, in descending order of [min_visits]. *)
Definition config_ok (cfg : Config.t) : Prop :=
  Config.get_rules cfg <> [] /\
  Sorted (fun a b => LoyaltyRule.min_visits a >= LoyaltyRule.min_visits b)
         (Config.get_rules cfg).

(** [ensure_engine] once the data is loaded: the rules of the configuration,
    a window of 3 months, one visit per day. *)
Definition ensure_engine (cfg : Config.t) (repo : CsvVisitRepository)
    (customers_repo : InMemoryCustomerRepository.t)
  : LoyaltyEngine.t VisitsInWindowStrategy.t CsvVisitRepository :=
  {| LoyaltyEngine.strategy :=
       VisitsInWindowStrategy.Build_t (Config.get_rules cfg) 3 true;
     LoyaltyEngine.repo := repo;
     LoyaltyEngine.customers := customers_repo |}.

(** ** [Reservation.parse_iso] and [CsvVisitRepository.load] *)

(** What [load] raises besides the exceptions of [exn]. *)
Inductive py_exn : Type :=
  | Exn (e : exn)
  | FileNotFoundError
  | AttributeError.

(** A row as [csv.DictReader] yields it, read at the seven expected columns:
    a column the line is too short for holds [None]. *)
Module CsvRow.
Record t : Type :=
  { reservation_id : option string;
    customer_id : option string;
    name : option string;
    email : option string;
    phone : option string;
    datetime : option string;
    party_size : option string }.
End CsvRow.

(** The file behind [self.path], as the reader presents it: its header and
    its rows. *)
Record csv_file : Type :=
  { fieldnames : list string; rows : list CsvRow.t }.

Definition expected_columns : list string :=
  ["reservation_id"; "customer_id"; "name"; "email"; "phone"; "datetime";
   "party_size"].

Section Loading.
(** [str.strip], [datetime.strptime] and [int] on a string. *)
Variable strip : string -> string.
Variable strptime : string -> string -> res Clock.datetime.
Variable py_int : string -> res Z.

(** The loop of [parse_iso]: the first format that parses wins, a
    [ValueError] moves on to the next one. *)
Fixpoint parse_iso_loop (dt_str : string) (fmts : list string)
  : res Clock.datetime :=
  match fmts with
  | [] => Raise ValueError
  | fmt :: fmts' =>
      match strptime (strip dt_str) fmt with
      | Ok d => Ok d
      | Raise ValueError => parse_iso_loop dt_str fmts'
      | Raise e => Raise e
      end
  end.

Definition parse_iso (dt_str : string) : res Clock.datetime :=
  parse_iso_loop dt_str ["%Y-%m-%dT%H:%M"; "%Y-%m-%d %H:%M"; "%Y-%m-%d"].

(** The [try] block of [load]: any exception rejects the row. *)
Definition row_values (dt_str size_str : string)
  : option (Clock.datetime * Z) :=
  match parse_iso dt_str with
  | Raise _ => None
  | Ok dt =>
      match py_int size_str with
      | Raise _ => None
      | Ok size => if size <=? 0 then None else Some (dt, size)
      end
  end.

(** One turn of the loop of [load], on the repository and [seen_res_ids]; the
    exception, if any, ends the loop. *)
Definition load_row (row : CsvRow.t) (st : CsvVisitRepository * gset string)
  : (CsvVisitRepository * gset string) * option py_exn :=
  match CsvRow.reservation_id row with
  | None => (st, Some AttributeError)
  | Some rid_raw =>
      let rid := strip rid_raw in
      if bool_decide (rid = "") || bool_decide (rid ∈ st.2) then (st, None)
      else
        let seen := {[rid]} ∪ st.2 in
        match CsvRow.customer_id row, CsvRow.name row, CsvRow.email row,
              CsvRow.phone row, CsvRow.datetime row, CsvRow.party_size row with
        | Some cid_raw, Some name_raw, Some email_raw, Some phone_raw,
          Some dt_raw, Some size_raw =>
            let cid := strip cid_raw in
            match row_values (strip dt_raw) (strip size_raw) with
            | None => ((st.1, seen), None)
            | Some (dt, size) =>
                let customers :=
                  if bool_decide (cid ∈ (_customers st.1).*1)
                  then _customers st.1
                  else dict_set (_customers st.1) cid
                         (Customer.Build_t cid (strip name_raw)
                            (strip email_raw) (strip phone_raw)) in
                (({| _reservations :=
                       _reservations st.1
                       ++ [Reservation.Build_t rid cid dt size];
                     _customers := customers |}, seen), None)
            end
        | _, _, _, _, _, _ => ((st.1, seen), Some AttributeError)
        end
  end.

Fixpoint load_rows (rs : list CsvRow.t) (st : CsvVisitRepository * gset string)
  : (CsvVisitRepository * gset string) * option py_exn :=
  match rs with
  | [] => (st, None)
  | row :: rs' =>
      match load_row row st with
      | (st', None) => load_rows rs' st'
      | (st', Some e) => (st', Some e)
      end
  end.

(** [load]: [file] is [None] when the path does not exist. The repository
    is returned as the call leaves it, with the exception that ended it, if
    any. *)
Definition load (self : CsvVisitRepository) (file : option csv_file)
  : CsvVisitRepository * option py_exn :=
  match file with
  | None => (self, Some FileNotFoundError)
  | Some f =>
      if forallb (fun c => bool_decide (c ∈ fieldnames f)) expected_columns
      then let r := load_rows (rows f) (self, ∅) in (r.1.1, r.2)
      else (self, Some (Exn ValueError))
  end.
End Loading.

(** [CsvVisitRepository(path)] *)
Definition new_repository : CsvVisitRepository :=
  {| _reservations := []; _customers := [] |}.

(** [return dict(self._customers)] *)
Definition get_customers (self : CsvVisitRepository)
  : list (string * Customer.t) := _customers self.

(** ** [main.py]: [ensure_csv_filename] *)

Section Filenames.
(** [str.strip] and [str.lower]. *)
Variable strip : string -> string.
Variable lower : string -> string.

(** [s.strip(c)] for a one-character [c]. *)
Fixpoint lstrip_char (c : Ascii.ascii) (s : string) : string :=
  match s with
  | EmptyString => EmptyString
  | String a s' => if Ascii.eqb a c then lstrip_char c s' else s
  end.

Fixpoint rstrip_char (c : Ascii.ascii) (s : string) : string :=
  match s with
  | EmptyString => EmptyString
  | String a s' =>
      match rstrip_char c s' with
      | EmptyString => if Ascii.eqb a c then EmptyString else String a EmptyString
      | t => String a t
      end
  end.

Definition strip_char (c : Ascii.ascii) (s : string) : string :=
  rstrip_char c (lstrip_char c s).

Fixpoint string_map (f : Ascii.ascii -> Ascii.ascii) (s : string) : string :=
  match s with
  | EmptyString => EmptyString
  | String a s' => String (f a) (string_map f s')
  end.

Fixpoint string_filter (f : Ascii.ascii -> bool) (s : string) : string :=
  match s with
  | EmptyString => EmptyString
  | String a s' => if f a then String a (string_filter f s') else string_filter f s'
  end.

(** [s.endswith(suffix)] *)
Fixpoint ends_with (suffix s : string) : bool :=
  String.eqb s suffix ||
  match s with
  | EmptyString => false
  | String _ s' => ends_with suffix s'
  end.

(** The characters the file name may not keep: backslash, slash, colon,
    asterisk, question mark, double quote, less-than, greater-than and bar,
    by code. *)
Definition forbidden : list Ascii.ascii :=
  Ascii.ascii_of_nat <$> [92; 47; 58; 42; 63; 34; 60; 62; 124]%nat.

Definition space : Ascii.ascii := Ascii.ascii_of_nat 32.
Definition underscore : Ascii.ascii := Ascii.ascii_of_nat 95.

Definition ensure_csv_filename (name default : string) : string :=
  let n := strip_char (Ascii.ascii_of_nat 39)
             (strip_char (Ascii.ascii_of_nat 34)
                (strip (if String.eqb name "" then default else name))) in
  let n := if String.eqb n "" then default else n in
  let n := string_filter (fun ch => negb (bool_decide (ch ∈ forbidden)))
             (string_map (fun ch => if Ascii.eqb ch space then underscore else ch) n) in
  if negb (ends_with ".csv" (lower n)) then String.append n ".csv" else n.
End Filenames.

(** What the loop of [load] keeps true of the repository and
    [seen_res_ids]: reservation ids are distinct, seen and not empty, party
    sizes are positive, every reservation's customer is registered, and the
    customers are keyed by their own id. *)
Definition load_inv (st : CsvVisitRepository * gset string) : Prop :=
  NoDup (Reservation.id <$> _reservations st.1) /\
  (forall r, r ∈ _reservations st.1 ->
     Reservation.id r ∈ st.2 /\ Reservation.id r <> "" /\
     0 < Reservation.party_size r /\
     Reservation.customer_id r ∈ (_customers st.1).*1) /\
  NoDup (_customers st.1).*1 /\
  (forall k c, (k, c) ∈ _customers st.1 -> Customer.id c = k).

(** A row the [try] block of [load] does not let through. *)
Definition rejected (strip : string -> string)
    (strptime : string -> string -> res datetime) (py_int : string -> res Z)
    (row : CsvRow.t) : Prop :=
  forall dt_raw size_raw,
    CsvRow.datetime row = Some dt_raw ->
    CsvRow.party_size row = Some size_raw ->
    row_values strip strptime py_int (strip dt_raw) (strip size_raw) = None.

(** What a row contributes, apart from the repository it is added to: the
    reservation and customer record it yields, if any, the ids seen after it,
    and the exception it ends the loop with, if any. *)
Definition row_effect (strip : string -> string)
    (strptime : string -> string -> res datetime) (py_int : string -> res Z)
    (row : CsvRow.t) (seen : gset string)
  : option (Reservation.t * Customer.t) * gset string * option py_exn :=
  match CsvRow.reservation_id row with
  | None => (None, seen, Some AttributeError)
  | Some rid_raw =>
      let rid := strip rid_raw in
      if bool_decide (rid = "") || bool_decide (rid ∈ seen) then (None, seen, None)
      else
        match CsvRow.customer_id row, CsvRow.name row, CsvRow.email row,
              CsvRow.phone row, CsvRow.datetime row, CsvRow.party_size row with
        | Some cid_raw, Some name_raw, Some email_raw, Some phone_raw,
          Some dt_raw, Some size_raw =>
            match row_values strip strptime py_int (strip dt_raw) (strip size_raw) with
            | None => (None, {[rid]} ∪ seen, None)
            | Some (dt, size) =>
                (Some (Reservation.Build_t rid (strip cid_raw) dt size,
                       Customer.Build_t (strip cid_raw) (strip name_raw)
                         (strip email_raw) (strip phone_raw)),
                 {[rid]} ∪ seen, None)
            end
        | _, _, _, _, _, _ => (None, {[rid]} ∪ seen, Some AttributeError)
        end
  end.

(** Appending the reservation and registering its customer unless the id is
    already a key. *)
Definition register (repo : CsvVisitRepository)
    (e : Reservation.t * Customer.t) : CsvVisitRepository :=
  {| _reservations := _reservations repo ++ [e.1];
     _customers :=
       if bool_decide (Customer.id e.2 ∈ (_customers repo).*1)
       then _customers repo
       else dict_set (_customers repo) (Customer.id e.2) e.2 |}.

(** The id a row carries, stripped. *)
Definition carries (strip : string -> string) (row : CsvRow.t)
    (rid : string) : Prop :=
  exists raw, CsvRow.reservation_id row = Some raw /\ strip raw = rid.

(** ** Sample file *)

Definition sample_turns : list editor_turn :=
  [TurnDelete (Some 2); TurnDelete (Some 1); TurnSave;
   TurnNew (Some rule_gold2); TurnEdit (Some 1) (fun _ => Some rule_vip2);
   TurnSave].


(** A customer without reservations. *)
Definition zoe : Customer.t :=
  Customer.Build_t "C900" "Zoe Paz" "zoe@example.com" "990".

(** [str.strip], [datetime.strptime] and [int] on the strings of the sample
    file, which carry no surrounding blanks, one date and one size. *)
Definition sample_strip (s : string) : string := s.

Definition sample_strptime (s fmt : string) : res datetime :=
  if String.eqb fmt "%Y-%m-%d" && String.eqb s "2025-03-01"
  then Ok (Clock.combine (Date 2025 3 1) Clock.time_min)
  else Raise ValueError.

Definition sample_int (s : string) : res Z :=
  if String.eqb s "2" then Ok 2
  else if String.eqb s "0" then Ok 0 else Raise ValueError.

Definition csv_row (rid cid nm dt size : string) : CsvRow.t :=
  {| CsvRow.reservation_id := Some rid; CsvRow.customer_id := Some cid;
     CsvRow.name := Some nm; CsvRow.email := Some "a@example.com";
     CsvRow.phone := Some "999"; CsvRow.datetime := Some dt;
     CsvRow.party_size := Some size |}.

Definition row_r1 : CsvRow.t := csv_row "R1" "C001" "Ana" "2025-03-01" "2".
Definition row_r2_bad : CsvRow.t := csv_row "R2" "C001" "Ana" "01/03/2025" "2".
Definition row_r2_good : CsvRow.t := csv_row "R2" "C002" "Bea" "2025-03-01" "2".

(** A row cut after its customer id. *)
Definition row_r3_short : CsvRow.t :=
  {| CsvRow.reservation_id := Some "R3"; CsvRow.customer_id := Some "C003";
     CsvRow.name := None; CsvRow.email := None; CsvRow.phone := None;
     CsvRow.datetime := None; CsvRow.party_size := None |}.

Definition sample_file : csv_file :=
  {| fieldnames := expected_columns;
     rows := [row_r1; row_r2_bad; row_r2_good] |}.

(** * Properties *)

(** ** Calendar arithmetic *)

Section CalendarFacts.

Lemma valid_date_iff (d : date) :
  valid_date d <->
  (1 <= year d <= 9999 /\ 1 <= month d <= 12 /\
   1 <= day d <= days_in_month (year d) (month d)).
Proof.
  unfold valid_date, new_date, MINYEAR, MAXYEAR. destruct d as [y m dd]; simpl.
  destruct (1 <=? y) eqn:E1, (y <=? 9999) eqn:E2,
           (1 <=? m) eqn:E3, (m <=? 12) eqn:E4,
           (1 <=? dd) eqn:E5, (dd <=? days_in_month y m) eqn:E6; simpl;
    split; try discriminate; try reflexivity; lia.
Qed.

Lemma new_date_ok (y m d : Z) :
  1 <= y <= 9999 -> 1 <= m <= 12 -> 1 <= d <= days_in_month y m ->
  new_date y m d = Ok (Date y m d).
Proof.
  intros. apply (proj2 (valid_date_iff (Date y m d))). simpl. lia.
Qed.

Lemma new_date_bad_year (y m d : Z) :
  y < 1 \/ 9999 < y -> new_date y m d = Raise ValueError.
Proof.
  intros Hy. unfold new_date, MINYEAR, MAXYEAR.
  destruct (1 <=? y) eqn:E1, (y <=? 9999) eqn:E2; simpl; try reflexivity; lia.
Qed.

Lemma is_leap_spec (y : Z) : is_leap y = true <-> leap_year y.
Proof.
  unfold is_leap, leap_year.
  rewrite andb_true_iff, orb_true_iff, negb_true_iff, !Z.eqb_eq, Z.eqb_neq.
  reflexivity.
Qed.

Lemma month_cases (m : Z) :
  1 <= m <= 12 ->
  m = 1 \/ m = 2 \/ m = 3 \/ m = 4 \/ m = 5 \/ m = 6 \/
  m = 7 \/ m = 8 \/ m = 9 \/ m = 10 \/ m = 11 \/ m = 12.
Proof. lia. Qed.

(** The inline table agrees with [date]'s own month lengths, and both with
    the rule in words. *)
Lemma month_table_lookup (y m : Z) :
  1 <= m <= 12 ->
  py_index (month_table y) (m - 1) = Ok (days_in_month y m).
Proof.
  intros Hm. unfold month_table, days_in_month, is_leap.
  destruct (month_cases m Hm) as [->|[->|[->|[->|[->|[->|[->|[->|[->|[->|[->| ->]]]]]]]]]]];
    reflexivity.
Qed.

Lemma days_in_month_last_day (y m : Z) :
  1 <= m <= 12 -> days_in_month y m = last_day y m.
Proof.
  intros Hm. unfold days_in_month, last_day.
  destruct (month_cases m Hm) as [->|[->|[->|[->|[->|[->|[->|[->|[->|[->|[->| ->]]]]]]]]]]];
    try reflexivity.
  simpl. destruct (is_leap y) eqn:E.
  - apply is_leap_spec in E. destruct (decide (leap_year y)); [reflexivity | contradiction].
  - destruct (decide (leap_year y)) as [L|L]; [|reflexivity].
    apply is_leap_spec in L. congruence.
Qed.

Lemma days_in_month_bounds (y m : Z) :
  1 <= m <= 12 -> 28 <= days_in_month y m <= 31.
Proof.
  intros Hm. unfold days_in_month.
  destruct (month_cases m Hm) as [->|[->|[->|[->|[->|[->|[->|[->|[->|[->|[->| ->]]]]]]]]]]];
    simpl; try lia.
  destruct (is_leap y); simpl; lia.
Qed.

(** The borrowing loop keeps the month index, leaves a positive month
    alone and brings any other month into [1..12]. *)
Lemma months_ago_loop_spec (y m : Z) :
  month_index (months_ago_loop y m).1 (months_ago_loop y m).2
    = month_index y m /\
  (0 < m -> months_ago_loop y m = (y, m)) /\
  (m <= 0 -> 1 <= (months_ago_loop y m).2 <= 12).
Proof.
  funelim (months_ago_loop y m).
  - destruct H as (Hi & Hpos & Hneg).
    repeat split; try lia.
    + rewrite Hi. unfold month_index. lia.
    + destruct (Z_le_dec (m + 12) 0); [apply Hneg; lia|].
      rewrite Hpos by lia. simpl. lia.
    + destruct (Z_le_dec (m + 12) 0); [apply Hneg; lia|].
      rewrite Hpos by lia. simpl. lia.
  - simpl. repeat split; try lia.
Qed.

(** [months_ago] inside the range of [date]: the result is the date whose
    month is [n] months back, with the day clamped. *)
Lemma months_ago_spec (d : date) (n : Z) :
  valid_date d -> 0 <= n ->
  12 <= month_index (year d) (month d) - n ->
  exists r, months_ago d n = Ok r /\ valid_date r /\
    month_index (year r) (month r) = month_index (year d) (month d) - n /\
    day r = Z.min (day d) (last_day (year r) (month r)).
Proof.
  intros Hd Hn Hr. apply valid_date_iff in Hd. destruct Hd as (Hy & Hm & Hdd).
  unfold months_ago.
  destruct (months_ago_loop_spec (year d) (month d - n)) as (Hi & Hpos & Hneg).
  destruct (months_ago_loop (year d) (month d - n)) as [y' m'] eqn:E.
  cbn [fst snd] in Hi, Hneg.
  assert (Hm' : 1 <= m' <= 12).
  { destruct (Z_le_dec (month d - n) 0) as [L|L]; [auto|].
    assert (Hp : (y', m') = (year d, month d - n)) by (apply Hpos; lia).
    inversion Hp; subst. lia. }
  unfold month_index in *.
  assert (Hy' : 1 <= y' <= 9999) by lia.
  rewrite month_table_lookup by assumption. cbn [mbind res_bind].
  pose proof (days_in_month_bounds y' m' Hm') as Hb.
  rewrite new_date_ok by lia.
  eexists; split; [reflexivity|]. split.
  - apply valid_date_iff. simpl. lia.
  - simpl. split; [lia|]. by rewrite days_in_month_last_day.
Qed.

(** Below the range of [date] the constructor refuses the year. *)
Lemma months_ago_underflow (d : date) (n : Z) :
  valid_date d -> 0 <= n ->
  month_index (year d) (month d) - n < 12 ->
  months_ago d n = Raise ValueError.
Proof.
  intros Hd Hn Hr. apply valid_date_iff in Hd. destruct Hd as (Hy & Hm & Hdd).
  unfold months_ago.
  destruct (months_ago_loop_spec (year d) (month d - n)) as (Hi & Hpos & Hneg).
  destruct (months_ago_loop (year d) (month d - n)) as [y' m'] eqn:E.
  cbn [fst snd] in Hi, Hneg.
  assert (Hm' : 1 <= m' <= 12).
  { destruct (Z_le_dec (month d - n) 0) as [L|L]; [auto|].
    assert (Hp : (y', m') = (year d, month d - n)) by (apply Hpos; lia).
    inversion Hp; subst. lia. }
  unfold month_index in *.
  rewrite month_table_lookup by assumption. cbn [mbind res_bind].
  apply new_date_bad_year. lia.
Qed.

Lemma months_ago_zero (d : date) : valid_date d -> months_ago d 0 = Ok d.
Proof.
  intros Hd. pose proof Hd as Hv. apply valid_date_iff in Hd.
  destruct Hd as (Hy & Hm & Hdd). unfold months_ago.
  destruct (months_ago_loop_spec (year d) (month d - 0)) as (_ & Hpos & _).
  rewrite Hpos by lia. rewrite Z.sub_0_r.
  rewrite month_table_lookup by assumption. cbn [mbind res_bind].
  rewrite Z.min_l by lia. exact Hv.
Qed.

End CalendarFacts.

(** C8, as the code has it: for every valid date [d] and every [n >= 0] such
    that the month [n] months before [d] is not earlier than January of year
    1 ([date.MINYEAR]), [months_ago d n] returns a valid date exactly [n]
    calendar months before [d], its day clamped to the last day of the target
    month by the leap-year rule; [n] may exceed 12; for [n = 0] the input is
    returned unchanged; and the two month-end examples hold. *)
Theorem months_ago_in_range :
  (forall (d : date) (n : Z),
     valid_date d -> 0 <= n ->
     12 <= month_index (year d) (month d) - n ->
     exists r, months_ago d n = Ok r /\ valid_date r /\
       month_index (year r) (month r) = month_index (year d) (month d) - n /\
       day r = Z.min (day d) (last_day (year r) (month r)) /\
       1 <= day r <= last_day (year r) (month r) /\
       (n = 0 -> r = d)) /\
  months_ago (Date 2025 3 31) 1 = Ok (Date 2025 2 28) /\
  months_ago (Date 2024 3 31) 1 = Ok (Date 2024 2 29) /\
  months_ago (Date 2025 3 31) 25 = Ok (Date 2023 2 28).
Proof.
  split; [|repeat split; reflexivity].
  intros d n Hd Hn Hr.
  destruct (months_ago_spec d n Hd Hn Hr) as (r & Hr1 & Hr2 & Hr3 & Hr4).
  exists r. repeat split; try assumption.
  - apply valid_date_iff in Hr2. lia.
  - apply valid_date_iff in Hr2.
    rewrite <- days_in_month_last_day by lia. lia.
  - intros ->. rewrite months_ago_zero in Hr1 by assumption. congruence.
Qed.

Lemma months_ago_in_range_witness :
  exists r, months_ago (Date 2024 5 31) 15 = Ok r /\ valid_date r /\
    month_index (year r) (month r) = month_index 2024 5 - 15 /\
    day r = Z.min 31 (last_day (year r) (month r)) /\
    1 <= day r <= last_day (year r) (month r) /\
    ((15:Z) = 0 -> r = Date 2024 5 31).
Proof.
  apply (proj1 months_ago_in_range (Date 2024 5 31) 15);
    [reflexivity | lia | vm_compute; discriminate].
Defined.

(** C8 as stated fails: one month before a valid date of January of year 1
    there is no [date], and [months_ago] raises [ValueError]. *)
Lemma months_ago_not_total :
  ~ (forall (d : date) (n : Z),
       valid_date d -> 0 <= n -> exists r, months_ago d n = Ok r /\ valid_date r).
Proof.
  intros Hall.
  destruct (Hall (Date 1 1 15) 1) as (r & Hr & _); [reflexivity | lia |].
  vm_compute in Hr. discriminate.
Qed.

(** ** The order on datetimes *)

Section DatetimeOrder.

Lemma lex_compare_antisym (a b : list Z) :
  lex_compare b a = CompOpp (lex_compare a b).
Proof.
  revert b. induction a as [|x a IH]; intros [|y b]; simpl; try reflexivity.
  rewrite (Z.compare_antisym x y).
  destruct (x ?= y); simpl; auto.
Qed.

Lemma lex_compare_le_trans (a b c : list Z) :
  lex_compare a b <> Gt -> lex_compare b c <> Gt -> lex_compare a c <> Gt.
Proof.
  revert b c. induction a as [|x a IH]; intros [|y b] [|z c]; simpl;
    try congruence.
  destruct (Z.compare_spec x y), (Z.compare_spec y z), (Z.compare_spec x z);
    try congruence; try lia; subst; eauto.
Qed.

Lemma dt_le_trans (a b c : datetime) :
  dt_le a b = true -> dt_le b c = true -> dt_le a c = true.
Proof.
  unfold dt_le. intros Hab Hbc.
  pose proof (lex_compare_le_trans (fields a) (fields b) (fields c)) as T.
  destruct (lex_compare (fields a) (fields b)),
           (lex_compare (fields b) (fields c)),
           (lex_compare (fields a) (fields c));
    try reflexivity; try discriminate; exfalso; apply T; congruence.
Qed.

(** [end < start] is the negation of [start <= end]. *)
Lemma dt_lt_not_le (a b : datetime) : dt_lt a b = negb (dt_le b a).
Proof.
  unfold dt_lt, dt_le. rewrite (lex_compare_antisym (fields a) (fields b)).
  destruct (lex_compare (fields a) (fields b)); reflexivity.
Qed.

End DatetimeOrder.

(** ** Visit counting *)

Lemma filter_none {A} (P : A -> Prop) `{forall x, Decision (P x)} (l : list A) :
  (forall x, x ∈ l -> ~ P x) -> filter P l = [].
Proof.
  intros Hno. induction l as [|x l IH]; [reflexivity|].
  rewrite filter_cons, decide_False.
  - apply IH. intros y Hy. apply Hno. by right.
  - apply Hno. by left.
Qed.

Lemma size_list_to_set_le (l : list date) :
  (size (list_to_set l : gset date) <= length l)%nat.
Proof.
  induction l as [|d l IH].
  - rewrite list_to_set_nil, size_empty. done.
  - rewrite list_to_set_cons, size_union_alt, size_singleton. simpl.
    pose proof (subseteq_size (list_to_set l ∖ {[d]} : gset date)
                              (list_to_set l)) as Hle.
    assert (Hsub : (list_to_set l ∖ {[d]} : gset date) ⊆ list_to_set l).
    { intros x Hx. by apply elem_of_difference in Hx as [Hx _]. }
    specialize (Hle Hsub). lia.
Qed.

Section CountVisits.
Context {R : Type} `{VisitRepository R}.

Lemma matches_in_range cid s e r :
  matches cid s e r = true <-> in_range cid s e r.
Proof.
  unfold matches, in_range.
  rewrite !andb_true_iff, bool_decide_eq_true. reflexivity.
Qed.

Lemma filter_matches cid s e (l : list Reservation.t) :
  List.filter (matches cid s e) l = filter (in_range cid s e) l.
Proof.
  induction l as [|r l IH]; [reflexivity|].
  simpl. rewrite filter_cons, IH.
  destruct (matches cid s e r) eqn:E.
  - apply matches_in_range in E. by rewrite decide_True.
  - rewrite decide_False; [done|]. intros Hr.
    apply matches_in_range in Hr. congruence.
Qed.

Lemma count_visits_raw (self : R) cid s e :
  count_visits self cid s e false
  = Z.of_nat (length (filter (in_range cid s e) (get_reservations self))).
Proof. unfold count_visits. by rewrite filter_matches. Qed.

Lemma count_visits_unique (self : R) cid s e :
  count_visits self cid s e true
  = Z.of_nat (size (list_to_set
      ((fun r => date_of (Reservation.dt r))
         <$> filter (in_range cid s e) (get_reservations self)) : gset date)).
Proof. unfold count_visits. by rewrite filter_matches. Qed.

Lemma count_visits_le_raw (self : R) cid s e u :
  0 <= count_visits self cid s e u
    <= Z.of_nat (length (filter (in_range cid s e) (get_reservations self))).
Proof.
  destruct u.
  - rewrite count_visits_unique.
    pose proof (size_list_to_set_le
      ((fun r => date_of (Reservation.dt r))
         <$> filter (in_range cid s e) (get_reservations self))) as Hle.
    rewrite length_fmap in Hle. lia.
  - rewrite count_visits_raw. lia.
Qed.

Lemma count_visits_none (self : R) cid s e u :
  (forall r, r ∈ get_reservations self -> ~ in_range cid s e r) ->
  count_visits self cid s e u = 0.
Proof.
  intros Hno. pose proof (count_visits_le_raw self cid s e u) as Hb.
  rewrite (filter_none _ _ Hno) in Hb. simpl in Hb. lia.
Qed.

End CountVisits.

(** C6: [count_visits] counts the events of the customer with
    [start <= dt <= end]: the matching events themselves when
    [unique_per_day] is false, the distinct calendar dates among them when it
    is true; the result is never negative, and it is 0 when no event has the
    customer id or when [start > end]. *)
Theorem count_visits_spec {R : Type} `{VisitRepository R}
    (self : R) (cid : string) (start_dt end_dt : datetime) :
  let matching := filter (in_range cid start_dt end_dt) (get_reservations self) in
  count_visits self cid start_dt end_dt false = Z.of_nat (length matching) /\
  (exists days : list date,
     NoDup days /\
     (forall d, d ∈ days <->
        exists r, r ∈ get_reservations self /\
                  in_range cid start_dt end_dt r /\
                  date_of (Reservation.dt r) = d) /\
     count_visits self cid start_dt end_dt true = Z.of_nat (length days)) /\
  (forall u, 0 <= count_visits self cid start_dt end_dt u) /\
  (forall u,
     (forall r, r ∈ get_reservations self -> Reservation.customer_id r <> cid) ->
     count_visits self cid start_dt end_dt u = 0) /\
  (forall u, dt_lt end_dt start_dt = true ->
     count_visits self cid start_dt end_dt u = 0).
Proof.
  intros matching. split; [apply count_visits_raw|]. split; [|split; [|split]].
  - exists (elements (list_to_set
      ((fun r => date_of (Reservation.dt r)) <$> matching) : gset date)).
    split; [apply NoDup_elements|]. split.
    + intros d. rewrite elem_of_elements, elem_of_list_to_set, list_elem_of_fmap.
      split.
      * intros (r & -> & Hr). apply list_elem_of_filter in Hr as [Hp Hin].
        exists r. done.
      * intros (r & Hr & Hin & <-). exists r. split; [done|].
        apply list_elem_of_filter. done.
    + apply count_visits_unique.
  - intros u. apply count_visits_le_raw.
  - intros u Hno. apply count_visits_none.
    intros r Hr (Hc & _). by apply (Hno r).
  - intros u Hlt. apply count_visits_none.
    intros r Hr (_ & Hs & He).
    rewrite dt_lt_not_le, (dt_le_trans _ _ _ Hs He) in Hlt. discriminate.
Qed.

(** C7: counting one visit per day never gives more than counting every
    visit. *)
Theorem count_visits_unique_le_raw {R : Type} `{VisitRepository R}
    (self : R) (cid : string) (start_dt end_dt : datetime) :
  count_visits self cid start_dt end_dt true
    <= count_visits self cid start_dt end_dt false.
Proof.
  rewrite (count_visits_raw self). apply count_visits_le_raw.
Qed.

(** ** Python's sort *)

Section PySortFacts.
Context {A K : Type} (lt : K -> K -> bool) (key : A -> K) (reverse : bool).
Hypothesis lt_asym : forall a b, lt a b = true -> lt b a = false.

Local Abbreviation ins := (sort_insert lt key reverse).
Local Abbreviation srt := (py_sorted lt key reverse).
Local Abbreviation ino := (in_order lt key reverse).

Lemma precedes_asym (x y : A) :
  precedes lt key reverse y x = true -> precedes lt key reverse x y = false.
Proof. unfold precedes. destruct reverse; apply lt_asym. Qed.

Lemma sort_insert_perm (x : A) (l : list A) : Permutation (x :: l) (ins x l).
Proof.
  induction l as [|y l IH]; simpl; [reflexivity|].
  destruct (precedes lt key reverse y x); [|reflexivity].
  rewrite perm_swap. by constructor.
Qed.

Lemma py_sorted_perm (l : list A) : Permutation l (srt l).
Proof.
  induction l as [|x l IH]; simpl; [reflexivity|].
  rewrite <- sort_insert_perm. by constructor.
Qed.

Lemma sort_insert_hd (x a : A) (l : list A) :
  ino a x -> HdRel ino a l -> HdRel ino a (ins x l).
Proof.
  intros Hax Hl. destruct l as [|y l]; simpl; [by constructor|].
  destruct (precedes lt key reverse y x); constructor; [|done].
  by inversion Hl.
Qed.

Lemma sort_insert_sorted (x : A) (l : list A) :
  Sorted ino l -> Sorted ino (ins x l).
Proof.
  induction 1 as [|y l Hs IH Hhd]; simpl; [repeat constructor|].
  destruct (precedes lt key reverse y x) eqn:E.
  - constructor; [exact IH|].
    apply sort_insert_hd; [|exact Hhd]. by apply precedes_asym.
  - constructor; [by constructor|]. by constructor.
Qed.

Lemma py_sorted_sorted (l : list A) : Sorted ino (srt l).
Proof.
  induction l as [|x l IH]; simpl; [constructor|].
  by apply sort_insert_sorted.
Qed.

(** The sort is stable: the elements with one key keep their order. *)
Lemma precedes_key_ne (x y : A) :
  precedes lt key reverse y x = true -> key y <> key x.
Proof.
  unfold precedes. intros Hp Heq. rewrite Heq in Hp.
  assert (Hirr : lt (key x) (key x) = true) by (destruct reverse; exact Hp).
  pose proof (lt_asym _ _ Hirr). congruence.
Qed.

Lemma sort_insert_filter `{EqDecision K} (k : K) (x : A) (l : list A) :
  filter (fun a => key a = k) (ins x l) = filter (fun a => key a = k) (x :: l).
Proof.
  induction l as [|y l IH]; simpl; [done|].
  destruct (precedes lt key reverse y x) eqn:E; [|done].
  apply precedes_key_ne in E.
  rewrite (filter_cons _ y), IH, !(filter_cons _ x), (filter_cons _ y).
  destruct (decide (key y = k)), (decide (key x = k)); congruence.
Qed.

Lemma py_sorted_stable `{EqDecision K} (k : K) (l : list A) :
  filter (fun a => key a = k) (srt l) = filter (fun a => key a = k) l.
Proof.
  induction l as [|x l IH]; simpl; [done|].
  by rewrite sort_insert_filter, !filter_cons, IH.
Qed.

End PySortFacts.

Lemma Sorted_impl {A} (P Q : A -> A -> Prop) (l : list A) :
  (forall a b, P a b -> Q a b) -> Sorted P l -> Sorted Q l.
Proof.
  intros HPQ. induction 1 as [|a l Hs IH Hhd]; constructor; [done|].
  destruct Hhd; constructor; auto.
Qed.

(** A locally sorted list that repeats no key is strictly sorted. *)
Lemma Sorted_ge_NoDup_gt {A} (key : A -> Z) (l : list A) :
  Sorted (fun a b => key a >= key b) l -> NoDup (key <$> l) ->
  Sorted (fun a b => key a > key b) l.
Proof.
  induction 1 as [|a l Hs IH Hhd]; intros Hnd; [constructor|].
  rewrite fmap_cons in Hnd. apply NoDup_cons in Hnd as [Hnotin Hnd].
  constructor; [auto|].
  destruct Hhd as [|b l' Hab]; constructor.
  assert (key a <> key b) by (intros Heq; apply Hnotin; rewrite Heq; left).
  lia.
Qed.

(** ** The rule set *)

Section ConfigFacts.
Import LoyaltyRule.

Lemma Zltb_asym (a b : Z) : (a <? b) = true -> (b <? a) = false.
Proof. intros Hab. apply Z.ltb_lt in Hab. apply Z.ltb_nlt. lia. Qed.

Lemma set_rules_sorted (cfg : Config.t) (rs : list t) :
  Sorted (fun a b => min_visits a >= min_visits b)
         (Config.get_rules (Config.set_rules cfg rs)).
Proof.
  unfold Config.get_rules, Config.set_rules. simpl.
  eapply Sorted_impl; [|apply py_sorted_sorted, Zltb_asym].
  intros a b. unfold in_order, precedes. intros Hab.
  apply Z.ltb_nlt in Hab. lia.
Qed.

Lemma set_rules_perm (cfg : Config.t) (rs : list t) :
  Permutation rs (Config.get_rules (Config.set_rules cfg rs)).
Proof. apply py_sorted_perm. Qed.

End ConfigFacts.

(** C3, as the code has it: after [set_rules] with any list, [get_rules]
    returns a permutation of the input sorted descending by [min_visits], each
    element's [min_visits] at least the next one's; the order is strict when
    no two input rules share a [min_visits]. *)
Theorem set_rules_get_rules_sorted (cfg : Config.t) (rs : list LoyaltyRule.t) :
  let out := Config.get_rules (Config.set_rules cfg rs) in
  Permutation rs out /\
  Sorted (fun a b => LoyaltyRule.min_visits a >= LoyaltyRule.min_visits b) out /\
  (NoDup (LoyaltyRule.min_visits <$> rs) ->
   Sorted (fun a b => LoyaltyRule.min_visits a > LoyaltyRule.min_visits b) out).
Proof.
  intros out. split; [apply set_rules_perm|]. split; [apply set_rules_sorted|].
  intros Hnd. apply Sorted_ge_NoDup_gt; [apply set_rules_sorted|].
  unfold out. by rewrite <- (set_rules_perm cfg rs).
Qed.

Lemma set_rules_get_rules_sorted_witness :
  let out := Config.get_rules (Config.set_rules Config.init [rule_vip2; rule_super4]) in
  Permutation [rule_vip2; rule_super4] out /\
  Sorted (fun a b => LoyaltyRule.min_visits a >= LoyaltyRule.min_visits b) out /\
  Sorted (fun a b => LoyaltyRule.min_visits a > LoyaltyRule.min_visits b) out.
Proof.
  destruct (set_rules_get_rules_sorted Config.init [rule_vip2; rule_super4])
    as (Hp & Hs & Hstrict).
  split; [exact Hp|]. split; [exact Hs|].
  apply Hstrict. compute_done.
Defined.

(** C3 as stated fails: two rules with the same [min_visits] stay next to
    each other, so the result is not strictly descending. *)
Lemma set_rules_not_strict :
  ~ Sorted (fun a b => LoyaltyRule.min_visits a > LoyaltyRule.min_visits b)
      (Config.get_rules (Config.set_rules Config.init [rule_vip2; rule_gold2])).
Proof.
  vm_compute. intros Hs. inversion Hs as [|a l Hs' Hhd]; subst.
  inversion Hhd as [|b l' Hab]; subst. discriminate Hab.
Qed.

(** ** The tier classifier *)

Section ClassifierFacts.
Import VisitsInWindowStrategy.
Context {R : Type} `{VisitRepository R}.

(** The single pass with [continue] and early [return] finds the first
    remaining rule that applies. *)
Lemma apply_rules_expected (w c : Z) (rs : list LoyaltyRule.t) :
  apply_rules w c rs = expected_tier w c rs.
Proof.
  unfold expected_tier, first_applicable.
  induction rs as [|r rs IH]; simpl; [reflexivity|].
  destruct (Z.eqb_spec (LoyaltyRule.window_months r) w) as [Hw|Hw]; simpl.
  - rewrite (bool_decide_eq_true_2 _ Hw). simpl.
    unfold LoyaltyRule.applies.
    destruct (Z.geb_spec c (LoyaltyRule.min_visits r)) as [Hc|Hc].
    + rewrite bool_decide_eq_true_2 by lia. reflexivity.
    + rewrite bool_decide_eq_false_2 by lia. exact IH.
  - rewrite (bool_decide_eq_false_2 _ Hw). exact IH.
Qed.

Lemma classify_in_range (self : t) (customer : Customer.t) (as_of : date)
    (visits : R) :
  valid_date as_of -> 0 <= window_months self ->
  12 <= month_index (year as_of) (month as_of) - window_months self ->
  exists start_date,
    months_ago as_of (window_months self) = Ok start_date /\
    classify self customer as_of visits
    = Ok (expected_tier (window_months self)
            (count_visits visits (Customer.id customer)
               (combine start_date time_min) (combine as_of time_max)
               (unique_per_day self))
            (rules_desc self)).
Proof.
  intros Hd Hw Hr.
  destruct (months_ago_spec as_of _ Hd Hw Hr) as (sd & Hsd & _).
  exists sd. split; [exact Hsd|].
  unfold classify. rewrite Hsd. cbn [mbind res_bind].
  by rewrite apply_rules_expected.
Qed.

End ClassifierFacts.

(** C1, as the code has it: for every customer, visit repository, valid
    reference date [as_of] and window of [window_months >= 0] months whose
    start does not fall before January of year 1, [classify] counts the visits
    over [[months_ago as_of window_months] at midnight, [as_of] at
    23:59:59.999999], skips the rules for another window and returns the tier
    of the first remaining rule whose [min_visits] the count reaches (the
    baseline tier when there is none); with the two default rules and one
    visit per day counted, a count of 4 gives "Super VIP", 3 gives "VIP", and
    1 or 0 gives "Regular". *)
Theorem classify_first_applicable {R : Type} `{VisitRepository R}
    (self : VisitsInWindowStrategy.t) (customer : Customer.t) (as_of : date)
    (visits : R) :
  let w := VisitsInWindowStrategy.window_months self in
  valid_date as_of -> 0 <= w ->
  12 <= month_index (year as_of) (month as_of) - w ->
  exists start_date,
    months_ago as_of w = Ok start_date /\
    let count :=
      count_visits visits (Customer.id customer)
        (combine start_date time_min) (combine as_of time_max)
        (VisitsInWindowStrategy.unique_per_day self) in
    let tier := VisitsInWindowStrategy.classify self customer as_of visits in
    tier = Ok (expected_tier w count (VisitsInWindowStrategy.rules_desc self)) /\
    (VisitsInWindowStrategy.rules_desc self
       = [LoyaltyRule.Build_t 4 3 super_vip; LoyaltyRule.Build_t 2 3 vip] ->
     w = 3 -> VisitsInWindowStrategy.unique_per_day self = true ->
     (count = 4 -> tier = Ok super_vip) /\
     (count = 3 -> tier = Ok vip) /\
     (count = 1 \/ count = 0 ->
      tier = Ok {| tier_name := "Regular"; priority := 0 |})).
Proof.
  intros w Hd Hw Hr.
  destruct (classify_in_range self customer as_of visits Hd Hw Hr)
    as (sd & Hsd & Hc).
  exists sd. split; [exact Hsd|]. intros count tier. split; [exact Hc|].
  intros Hrules Hw3 _. unfold tier. rewrite Hc. fold w count.
  rewrite Hrules, Hw3.
  repeat split.
  - intros ->. reflexivity.
  - intros ->. reflexivity.
  - intros [-> | ->]; reflexivity.
Qed.

Lemma classify_first_applicable_witness :
  exists start_date,
    months_ago (Date 2025 3 15) 3 = Ok start_date /\
    VisitsInWindowStrategy.classify default_strategy ana (Date 2025 3 15) sample_repo
    = Ok super_vip.
Proof.
  destruct (classify_first_applicable default_strategy ana (Date 2025 3 15)
              sample_repo) as (sd & Hsd & Hc & Hex);
    [reflexivity | simpl; lia | vm_compute; discriminate |].
  exists sd. split; [exact Hsd|].
  apply Hex; try reflexivity.
  vm_compute in Hsd. injection Hsd as <-. vm_compute. reflexivity.
Defined.

(** C1 as stated fails: three months before February of year 1 there is no
    [date]; [months_ago] raises and [classify] returns no tier. *)
Lemma classify_raises_before_year_1 :
  VisitsInWindowStrategy.classify default_strategy ana (Date 1 2 10) sample_repo
  = Raise ValueError.
Proof. reflexivity. Qed.

(** C9, as the code has it: with an empty rule list, for every customer,
    every visit history, every valid reference date and window of
    [window_months >= 0] months whose start does not fall before January of
    year 1, [classify] returns the tier ("Regular", 0) and raises nothing. *)
Theorem classify_empty_rules {R : Type} `{VisitRepository R}
    (self : VisitsInWindowStrategy.t) (customer : Customer.t) (as_of : date)
    (visits : R) :
  VisitsInWindowStrategy.rules_desc self = [] ->
  valid_date as_of ->
  0 <= VisitsInWindowStrategy.window_months self ->
  12 <= month_index (year as_of) (month as_of)
        - VisitsInWindowStrategy.window_months self ->
  VisitsInWindowStrategy.classify self customer as_of visits
  = Ok {| tier_name := "Regular"; priority := 0 |}.
Proof.
  intros Hrules Hd Hw Hr.
  destruct (classify_in_range self customer as_of visits Hd Hw Hr)
    as (sd & _ & ->).
  by rewrite Hrules.
Qed.

Lemma classify_empty_rules_witness :
  VisitsInWindowStrategy.classify empty_strategy ana (Date 2025 3 15) sample_repo
  = Ok {| tier_name := "Regular"; priority := 0 |}.
Proof.
  apply (classify_empty_rules empty_strategy ana (Date 2025 3 15) sample_repo);
    [reflexivity | reflexivity | simpl; lia | vm_compute; discriminate].
Defined.

(** C9 as stated fails: with an empty rule list and the reference date
    0001-02-10, the window start is not a [date] and [classify] raises
    [ValueError] instead of returning ("Regular", 0). *)
Lemma classify_empty_rules_raises :
  VisitsInWindowStrategy.classify empty_strategy ana (Date 1 2 10)
    {| _reservations := []; _customers := [] |}
  = Raise ValueError.
Proof. reflexivity. Qed.

(** ** The ranking report *)

Section ReportFacts.
Context {R : Type} `{VisitRepository R}.
Variable lower : string -> string.

Lemma string_ltb_asym (a b : string) :
  String.ltb a b = true -> String.ltb b a = false.
Proof.
  unfold String.ltb. rewrite (String.compare_antisym b a).
  destruct (String.compare a b); simpl; congruence.
Qed.

Lemma string_ltb_false_leb (a b : string) :
  String.ltb b a = false -> String.leb a b = true.
Proof.
  unfold String.ltb, String.leb. rewrite (String.compare_antisym b a).
  destruct (String.compare a b); simpl; congruence.
Qed.

Lemma key_lt_asym (a b : Z * string) :
  key_lt a b = true -> key_lt b a = false.
Proof.
  unfold key_lt. rewrite (Z.eqb_sym b.1 a.1).
  destruct (Z.eqb_spec a.1 b.1) as [Heq|Hne].
  - apply string_ltb_asym.
  - apply Zltb_asym.
Qed.

Lemma in_order_ranked (x y : Customer.t * Z) :
  in_order key_lt (ReportService.ranking_key lower) false x y ->
  ranked lower x y.
Proof.
  unfold in_order, precedes, key_lt, ReportService.ranking_key, ranked.
  cbn [fst snd].
  destruct (Z.eqb_spec (- y.2) (- x.2)) as [Heq|Hne].
  - intros Hlt. right. split; [lia|]. by apply string_ltb_false_leb.
  - intros Hlt. apply Z.ltb_nlt in Hlt. left. lia.
Qed.

Lemma ranking_in_range (self : ReportService.t R) (months : Z) (as_of : date) :
  valid_date as_of -> 1 <= months ->
  12 <= month_index (year as_of) (month as_of) - months ->
  exists start_date,
    months_ago as_of months = Ok start_date /\
    ReportService.ranking_top_customers lower self months as_of
    = Ok (py_sorted key_lt (ReportService.ranking_key lower) false
            ((fun c => (c, count_visits (ReportService.repo self)
                             (Customer.id c)
                             (combine start_date time_min)
                             (combine as_of time_max) true))
               <$> InMemoryCustomerRepository.find_all
                     (ReportService.customers self))).
Proof.
  intros Hd Hm Hr.
  destruct (months_ago_spec as_of months Hd ltac:(lia) Hr) as (sd & Hsd & _).
  exists sd. split; [exact Hsd|].
  unfold ReportService.ranking_top_customers. by rewrite Hsd.
Qed.

End ReportFacts.

(** C2, as the code has it: for every set of known customers, every
    [months >= 1] and valid reference date whose window start does not fall
    before January of year 1, [ranking_top_customers] returns one
    [(customer, count)] entry per known customer, each count being
    [count_visits] with [unique_per_day] true over [[months_ago as_of months]
    at midnight, [as_of] at 23:59:59.999999], and any two consecutive entries
    [(c1, v1)], [(c2, v2)] have [v1 > v2], or [v1 = v2] and
    [c1.name.lower() <= c2.name.lower()]. *)
Theorem ranking_top_customers_sorted {R : Type} `{VisitRepository R}
    (lower : string -> string) (self : ReportService.t R)
    (months : Z) (as_of : date) :
  valid_date as_of -> 1 <= months ->
  12 <= month_index (year as_of) (month as_of) - months ->
  exists start_date rows,
    months_ago as_of months = Ok start_date /\
    ReportService.ranking_top_customers lower self months as_of = Ok rows /\
    Permutation
      ((fun c => (c, count_visits (ReportService.repo self) (Customer.id c)
                       (combine start_date time_min)
                       (combine as_of time_max) true))
         <$> InMemoryCustomerRepository.find_all (ReportService.customers self))
      rows /\
    Sorted (ranked lower) rows.
Proof.
  intros Hd Hm Hr.
  destruct (ranking_in_range lower self months as_of Hd Hm Hr) as (sd & Hsd & Hrows).
  exists sd. eexists. split; [exact Hsd|]. split; [exact Hrows|]. split.
  - apply py_sorted_perm.
  - eapply Sorted_impl; [apply in_order_ranked|].
    apply py_sorted_sorted, key_lt_asym.
Qed.

Lemma ranking_top_customers_sorted_witness :
  ReportService.ranking_top_customers ascii_lower sample_report 1 (Date 2025 3 16)
  = Ok [(ana, 2); (bea, 2); (abel, 1)] /\
  exists start_date rows,
    months_ago (Date 2025 3 16) 1 = Ok start_date /\
    ReportService.ranking_top_customers ascii_lower sample_report 1 (Date 2025 3 16)
    = Ok rows /\
    Sorted (ranked ascii_lower) rows.
Proof.
  split; [vm_compute; reflexivity|].
  destruct (ranking_top_customers_sorted ascii_lower sample_report 1 (Date 2025 3 16))
    as (sd & rows & Hsd & Hrows & _ & Hs);
    [reflexivity | lia | vm_compute; discriminate |].
  exists sd, rows. auto.
Defined.

(** C2 as stated fails: one month before January of year 1 there is no
    [date], and the ranking raises [ValueError] instead of returning an entry
    per customer. *)
Lemma ranking_raises_before_year_1 :
  ReportService.ranking_top_customers ascii_lower sample_report 1 (Date 1 1 20)
  = Raise ValueError.
Proof. reflexivity. Qed.

(** ** Visits by month *)

Section MonthFacts.

Lemma month_key_index (y m : Z) :
  1 <= m <= 12 -> month_key (month_index y m) = (y, m).
Proof.
  intros Hm. unfold month_key, month_index.
  f_equal; Z.div_mod_to_equations; lia.
Qed.

Lemma month_index_key (i : Z) :
  month_index (month_key i).1 (month_key i).2 = i.
Proof.
  unfold month_key, month_index. cbn [fst snd].
  Z.div_mod_to_equations; lia.
Qed.

Lemma month_key_inj (i j : Z) : month_key i = month_key j -> i = j.
Proof.
  intros E. by rewrite <- (month_index_key i), <- (month_index_key j), E.
Qed.

Lemma month_keys_S (s : Z) (n : nat) :
  month_keys s (S n) = month_keys s n ++ [month_key (s + Z.of_nat n)].
Proof. unfold month_keys. by rewrite seq_S, fmap_app. Qed.

Lemma elem_of_month_keys (s : Z) (n : nat) (k : Z * Z) :
  k ∈ month_keys s n <-> exists i, s <= i < s + Z.of_nat n /\ k = month_key i.
Proof.
  unfold month_keys. rewrite list_elem_of_fmap. split.
  - intros (i & -> & Hi). apply elem_of_seq in Hi.
    exists (s + Z.of_nat i). split; [lia | done].
  - intros (i & Hi & ->). exists (Z.to_nat (i - s)). split.
    + f_equal. lia.
    + apply elem_of_seq. lia.
Qed.

Lemma month_keys_NoDup (s : Z) (n : nat) : NoDup (month_keys s n).
Proof.
  unfold month_keys. apply NoDup_fmap_2; [|apply NoDup_seq].
  intros i j E. apply month_key_inj in E. lia.
Qed.

Lemma length_month_keys (s : Z) (n : nat) : length (month_keys s n) = n.
Proof. unfold month_keys. by rewrite length_fmap, length_seq. Qed.

(** [add_months] on the first day of a month, inside the range of
    [date]. *)
Lemma add_months_first (i k : Z) :
  12 <= i + k <= last_month_index ->
  add_months (first_of_month i) k = Ok (first_of_month (i + k)).
Proof.
  unfold last_month_index, month_index, MAXYEAR. intros Hr.
  unfold add_months, first_of_month. cbn [year month day].
  replace (i / 12 + (i mod 12 + 1 - 1 + k) / 12) with ((i + k) / 12)
    by (Z.div_mod_to_equations; lia).
  replace ((i mod 12 + 1 - 1 + k) mod 12) with ((i + k) mod 12)
    by (Z.div_mod_to_equations; lia).
  assert (Hm : 1 <= (i + k) mod 12 + 1 <= 12)
    by (Z.div_mod_to_equations; lia).
  rewrite month_table_lookup by exact Hm. cbn [mbind res_bind].
  pose proof (days_in_month_bounds ((i + k) / 12) _ Hm) as Hb.
  rewrite Z.min_l by lia.
  apply new_date_ok; [Z.div_mod_to_equations; lia | exact Hm | lia].
Qed.

Lemma replace_day_first (d : date) :
  valid_date d ->
  replace_day d 1 = Ok (first_of_month (month_index (year d) (month d))).
Proof.
  intros Hd. apply valid_date_iff in Hd. destruct Hd as (Hy & Hm & Hdd).
  unfold replace_day, first_of_month.
  pose proof (month_key_index (year d) (month d) Hm) as Hk.
  unfold month_key in Hk. injection Hk as -> ->.
  pose proof (days_in_month_bounds (year d) (month d) Hm).
  apply new_date_ok; lia.
Qed.

(** Datetimes in order have their months in order. *)
Lemma dt_le_months (a b : datetime) :
  dt_le a b = true ->
  1 <= month (date_of a) <= 12 -> 1 <= month (date_of b) <= 12 ->
  month_index (year (date_of a)) (month (date_of a))
    <= month_index (year (date_of b)) (month (date_of b)).
Proof.
  unfold dt_le, fields, month_index. cbn [lex_compare].
  destruct (Z.compare_spec (year (date_of a)) (year (date_of b)));
    [|lia|discriminate].
  destruct (Z.compare_spec (month (date_of a)) (month (date_of b)));
    [lia|lia|discriminate].
Qed.

End MonthFacts.

Section VisitsByMonthFacts.
Context {R : Type} `{VisitRepository R}.

Lemma dict_set_fresh {K V} `{EqDecision K} (d : list (K * V)) (k : K) (v : V) :
  k ∉ d.*1 -> dict_set d k v = d ++ [(k, v)].
Proof.
  induction d as [|[k' v'] d IH]; simpl; [done|].
  intros Hk. apply not_elem_of_cons in Hk as [Hne Hk].
  rewrite decide_False by done. by rewrite IH.
Qed.

Lemma count_step_lookup (cid : string) (s e : datetime)
    (acc : gmap (Z * Z) Z) (r : Reservation.t) (k : Z * Z) :
  default 0 (count_step cid s e acc r !! k)
  = default 0 (acc !! k)
    + (if decide (in_range cid s e r /\ month_of r = k) then 1 else 0).
Proof.
  unfold count_step.
  destruct (decide (in_range cid s e r /\ month_of r = k))
    as [[(Hc & Hs & He) Hk]|Hn].
  - rewrite (bool_decide_eq_true_2 _ Hc), Hs, He. simpl.
    unfold month_of in Hk. rewrite Hk, lookup_insert_eq. simpl. lia.
  - destruct (bool_decide (Reservation.customer_id r = cid)) eqn:Ec;
      simpl; [|lia].
    destruct (dt_le s (Reservation.dt r)) eqn:Es,
             (dt_le (Reservation.dt r) e) eqn:Ee; simpl; try lia.
    apply bool_decide_eq_true in Ec.
    rewrite lookup_insert_ne; [lia|].
    intros Hk. apply Hn. split; [by repeat split | exact Hk].
Qed.

Lemma counts_lookup (cid : string) (s e : datetime)
    (l : list Reservation.t) (acc : gmap (Z * Z) Z) (k : Z * Z) :
  default 0 (foldl (count_step cid s e) acc l !! k)
  = default 0 (acc !! k) + month_count cid s e l k.
Proof.
  unfold month_count. revert acc.
  induction l as [|r l IH]; intros acc; simpl; [lia|].
  rewrite IH, count_step_lookup, filter_cons.
  destruct (decide (in_range cid s e r /\ month_of r = k)); simpl; lia.
Qed.

Lemma fill_months_spec (counts : gmap (Z * Z) Z) (s : Z) (n j : nat) :
  12 <= s + Z.of_nat j ->
  s + Z.of_nat j + Z.of_nat n <= last_month_index ->
  fill_months n counts
    ((fun k => (k, default 0 (counts !! k))) <$> month_keys s j)
    (first_of_month (s + Z.of_nat j))
  = Ok ((fun k => (k, default 0 (counts !! k))) <$> month_keys s (j + n)).
Proof.
  revert j. induction n as [|n IH]; intros j Hlo Hhi; simpl.
  - by rewrite Nat.add_0_r.
  - rewrite add_months_first by lia. cbn [mbind res_bind].
    rewrite dict_set_fresh.
    + replace (s + Z.of_nat j + 1) with (s + Z.of_nat (S j)) by lia.
      replace (j + S n)%nat with (S j + n)%nat by lia.
      rewrite <- IH by lia.
      by rewrite month_keys_S, fmap_app.
    + rewrite <- list_fmap_compose.
      change (month_key (s + Z.of_nat j) ∉ id <$> month_keys s j).
      rewrite list_fmap_id, elem_of_month_keys.
      intros (i & Hi & E). apply month_key_inj in E. lia.
Qed.

(** What [visits_by_month] returns inside the range of [date]: one row per
    month of the window, in order, each with the count of that month. *)
Lemma visits_by_month_rows (self : R) (cid : string) (months : Z) (as_of : date) :
  let last := month_index (year as_of) (month as_of) in
  let first := last - (months - 1) in
  valid_date as_of -> 1 <= months -> 12 <= first -> last < last_month_index ->
  visits_by_month self cid months as_of
  = Ok ((fun k => (k, month_count cid
                        (DateTime (first_of_month first) time_min)
                        (DateTime as_of (Time 23 59 59 0))
                        (get_reservations self) k))
          <$> month_keys first (Z.to_nat months)).
Proof.
  intros last first Hd Hm Hlo Hhi.
  unfold visits_by_month.
  rewrite replace_day_first by exact Hd. cbn [mbind res_bind]. fold last.
  rewrite add_months_first by (unfold first in Hlo; lia).
  cbn [mbind res_bind].
  replace (last + - (months - 1)) with first by (unfold first; lia).
  pose proof (fill_months_spec
    (foldl (count_step cid (combine (first_of_month first) time_min)
              (replace_hms (combine as_of time_min) 23 59 59)) ∅
           (get_reservations self))
    first (Z.to_nat months) 0) as Hfill.
  simpl (Z.of_nat 0) in Hfill. rewrite Z.add_0_r in Hfill.
  change (month_keys first 0) with (@nil (Z * Z)) in Hfill.
  rewrite fmap_nil in Hfill. rewrite Hfill by (unfold first; lia).
  f_equal. apply list_fmap_ext. intros _ k _.
  rewrite counts_lookup, lookup_empty. simpl. reflexivity.
Qed.

(** Every in-range event of a valid date falls in one of the months of the
    window. *)
Lemma in_range_month_in_keys cid (months : Z) (as_of : date) (r : Reservation.t) :
  let last := month_index (year as_of) (month as_of) in
  let first := last - (months - 1) in
  valid_date as_of -> 1 <= months ->
  valid_datetime (Reservation.dt r) ->
  in_range cid (DateTime (first_of_month first) time_min)
           (DateTime as_of (Time 23 59 59 0)) r ->
  month_of r ∈ month_keys first (Z.to_nat months).
Proof.
  intros last first Hd Hm [Hr _] (_ & Hs & He).
  apply valid_date_iff in Hd. destruct Hd as (_ & Hmd & _).
  apply valid_date_iff in Hr. destruct Hr as (_ & Hmr & _).
  apply dt_le_months in He; [|exact Hmr|exact Hmd].
  apply dt_le_months in Hs; [|simpl; Z.div_mod_to_equations; lia|exact Hmr].
  cbn [date_of first_of_month year month] in Hs, He.
  pose proof (month_index_key first) as Hf. unfold month_key in Hf.
  cbn [fst snd] in Hf. rewrite Hf in Hs.
  apply elem_of_month_keys.
  exists (month_index (year (date_of (Reservation.dt r)))
                      (month (date_of (Reservation.dt r)))).
  split; [fold last in He; unfold first in *; lia|].
  unfold month_of. by rewrite month_key_index.
Qed.

End VisitsByMonthFacts.

Section SumFacts.

Lemma sum_values_rows (f : Z * Z -> Z) (ks : list (Z * Z)) :
  sum_values ((fun k => (k, f k)) <$> ks) = foldr Z.add 0 (f <$> ks).
Proof.
  unfold sum_values, dict_values. by rewrite <- list_fmap_compose.
Qed.

Lemma sum_add (f g : Z * Z -> Z) (ks : list (Z * Z)) :
  foldr Z.add 0 ((fun k => f k + g k) <$> ks)
  = foldr Z.add 0 (f <$> ks) + foldr Z.add 0 (g <$> ks).
Proof.
  induction ks as [|k ks IH]; [done|].
  rewrite !fmap_cons. cbn [foldr]. lia.
Qed.

Lemma sum_zero (ks : list (Z * Z)) :
  foldr Z.add 0 ((fun _ => 0) <$> ks) = 0.
Proof.
  induction ks as [|k ks IH]; [done|].
  rewrite fmap_cons. cbn [foldr]. lia.
Qed.

Lemma sum_indicator (x : Z * Z) (ks : list (Z * Z)) :
  NoDup ks -> x ∈ ks ->
  foldr Z.add 0 ((fun k => if decide (x = k) then 1 else 0) <$> ks) = 1.
Proof.
  induction 1 as [|k ks Hk Hnd IH]; intros Hx; [by apply elem_of_nil in Hx|].
  rewrite fmap_cons. cbn [foldr]. apply elem_of_cons in Hx as [->|Hx].
  - rewrite decide_True by done.
    rewrite (list_fmap_ext _ (fun _ => 0)), sum_zero; [lia|].
    intros i k' Hk'. apply list_elem_of_lookup_2 in Hk'.
    rewrite decide_False; [done|]. by intros ->.
  - rewrite decide_False by (intros ->; done). rewrite IH by done. lia.
Qed.

(** The month buckets split the in-range events: each event is counted in
    exactly one. *)
Lemma sum_month_count (cid : string) (s e : datetime)
    (l : list Reservation.t) (ks : list (Z * Z)) :
  NoDup ks ->
  (forall r, r ∈ l -> in_range cid s e r -> month_of r ∈ ks) ->
  foldr Z.add 0 (month_count cid s e l <$> ks)
  = Z.of_nat (length (filter (in_range cid s e) l)).
Proof.
  intros Hnd. induction l as [|r l IH]; intros Hin.
  - unfold month_count. simpl. apply sum_zero.
  - rewrite (list_fmap_ext _
      (fun k => (if decide (in_range cid s e r /\ month_of r = k)
                 then 1 else 0) + month_count cid s e l k)).
    2:{ intros _ k _. unfold month_count. rewrite filter_cons.
        destruct (decide (in_range cid s e r /\ month_of r = k)); simpl; lia. }
    rewrite sum_add, IH by (intros r' Hr'; apply Hin; by right).
    rewrite filter_cons.
    destruct (decide (in_range cid s e r)) as [Hr|Hr].
    + rewrite (list_fmap_ext _ (fun k => if decide (month_of r = k) then 1 else 0)).
      2:{ intros _ k _.
          destruct (decide (month_of r = k)) as [Hk|Hk].
          - by rewrite decide_True.
          - rewrite decide_False; [done|]. by intros [_ ?]. }
      rewrite sum_indicator; [simpl; lia | done | apply Hin; [by left | done]].
    + rewrite (list_fmap_ext _ (fun _ => 0)), sum_zero; [lia|].
      intros _ k _. rewrite decide_False; [done|]. by intros [? _].
Qed.

End SumFacts.

(** C4, as the code has it: for every customer id, [months >= 1] and valid
    reference date such that the first month of the window is not before
    January of year 1 and [as_of] is not in December 9999, [visits_by_month]
    returns exactly [months] entries, keyed by the consecutive calendar months
    in ascending order from the month [months - 1] months before [as_of]'s
    month up to [as_of]'s month, each value at least 0 and equal to the number
    of that customer's events of that month inside the window, repetitions on
    one day included, so 0 for a month without such events. *)
Theorem visits_by_month_entries {R : Type} `{VisitRepository R}
    (self : R) (cid : string) (months : Z) (as_of : date) :
  let last := month_index (year as_of) (month as_of) in
  let first := last - (months - 1) in
  let start_dt := DateTime (first_of_month first) time_min in
  let end_dt := DateTime as_of (Time 23 59 59 0) in
  valid_date as_of -> 1 <= months -> 12 <= first -> last < last_month_index ->
  exists out,
    visits_by_month self cid months as_of = Ok out /\
    Z.of_nat (length out) = months /\
    out.*1 = month_keys first (Z.to_nat months) /\
    NoDup out.*1 /\
    (forall i : nat, (i < Z.to_nat months)%nat ->
       out.*1 !! i = Some (month_key (first + Z.of_nat i))) /\
    month_key last = (year as_of, month as_of) /\
    (forall k v, (k, v) ∈ out ->
       0 <= v /\
       v = Z.of_nat (length (filter
             (fun r => in_range cid start_dt end_dt r /\ month_of r = k)
             (get_reservations self))) /\
       ((forall r, r ∈ get_reservations self ->
           ~ (in_range cid start_dt end_dt r /\ month_of r = k)) -> v = 0)).
Proof.
  intros last first start_dt end_dt Hd Hm Hlo Hhi.
  set (row := fun k : Z * Z =>
         (k, month_count cid start_dt end_dt (get_reservations self) k)).
  exists (row <$> month_keys first (Z.to_nat months)).
  assert (Hkeys : (row <$> month_keys first (Z.to_nat months)).*1
                  = month_keys first (Z.to_nat months)).
  { rewrite <- list_fmap_compose. apply list_fmap_id. }
  split; [by apply visits_by_month_rows|].
  split; [rewrite length_fmap, length_month_keys; lia|].
  split; [exact Hkeys|].
  split; [rewrite Hkeys; apply month_keys_NoDup|].
  split.
  { intros i Hi. rewrite Hkeys. unfold month_keys.
    rewrite list_lookup_fmap, lookup_seq_lt by exact Hi. reflexivity. }
  split.
  { apply month_key_index. apply valid_date_iff in Hd. lia. }
  intros k v Hkv. apply list_elem_of_fmap in Hkv as (k' & [= -> ->] & _).
  unfold month_count.
  split; [lia|]. split; [reflexivity|].
  intros Hno. by rewrite filter_none.
Qed.

Lemma visits_by_month_entries_witness :
  exists out,
    visits_by_month sample_repo "C001" 3 (Date 2025 3 15) = Ok out /\
    Z.of_nat (length out) = 3 /\
    out.*1 = [(2025, 1); (2025, 2); (2025, 3)] /\
    out = [((2025, 1), 2); ((2025, 2), 1); ((2025, 3), 2)].
Proof.
  destruct (visits_by_month_entries sample_repo "C001" 3 (Date 2025 3 15))
    as (out & Hout & Hlen & Hkeys & _);
    [reflexivity | lia | vm_compute; discriminate | reflexivity |].
  exists out. repeat split; try assumption.
  vm_compute in Hout. by injection Hout as <-.
Defined.

(** C4 as stated fails at both ends of the range of [date]: with a window
    that starts before January of year 1, and with [as_of] in December 9999,
    where the loop computes the month after the last one, [visits_by_month]
    raises [ValueError] and returns no mapping. *)
Lemma visits_by_month_raises_out_of_range :
  visits_by_month sample_repo "C001" 2 (Date 1 1 15) = Raise ValueError /\
  visits_by_month sample_repo "C001" 1 (Date 9999 12 31) = Raise ValueError.
Proof. split; reflexivity. Qed.

(** C10, as the code has it: for every customer id, [months >= 1], valid
    reference date such that the first month of the window is not before
    January of year 1 and [as_of] is not in December 9999, and every
    collection of events, the values of [visits_by_month] add up to the
    number of that customer's events with a timestamp from midnight of the
    first day of the window's first month to [as_of] at 23:59:59, which is
    [count_visits] over that range without deduplication. *)
Theorem visits_by_month_sum {R : Type} `{VisitRepository R}
    (self : R) (cid : string) (months : Z) (as_of : date) :
  let last := month_index (year as_of) (month as_of) in
  let first := last - (months - 1) in
  let start_dt := DateTime (first_of_month first) time_min in
  let end_dt := DateTime as_of (Time 23 59 59 0) in
  valid_date as_of -> 1 <= months -> 12 <= first -> last < last_month_index ->
  Forall (fun r => valid_datetime (Reservation.dt r)) (get_reservations self) ->
  exists out,
    visits_by_month self cid months as_of = Ok out /\
    sum_values out
    = Z.of_nat (length (filter (in_range cid start_dt end_dt)
                               (get_reservations self))) /\
    sum_values out = count_visits self cid start_dt end_dt false.
Proof.
  intros last first start_dt end_dt Hd Hm Hlo Hhi Hvalid.
  eexists. split; [by apply visits_by_month_rows|].
  fold last first start_dt end_dt.
  rewrite count_visits_raw, sum_values_rows.
  rewrite sum_month_count; [done | apply month_keys_NoDup |].
  intros r Hr Hin. apply in_range_month_in_keys with (cid := cid);
    [exact Hd | exact Hm | | exact Hin].
  by apply (proj1 (Forall_forall _ _) Hvalid).
Qed.

Lemma visits_by_month_sum_witness :
  exists out,
    visits_by_month sample_repo "C001" 3 (Date 2025 3 15) = Ok out /\
    sum_values out = 5 /\
    count_visits sample_repo "C001"
      (DateTime (Date 2025 1 1) time_min)
      (DateTime (Date 2025 3 15) (Time 23 59 59 0)) false = 5.
Proof.
  destruct (visits_by_month_sum sample_repo "C001" 3 (Date 2025 3 15))
    as (out & Hout & Hsum & Hcount);
    [reflexivity | lia | vm_compute; discriminate | reflexivity | |].
  - repeat (constructor;
            [split; [reflexivity | unfold valid_time; simpl; lia]|]).
    constructor.
  - exists out. split; [exact Hout|].
    vm_compute in Hout. injection Hout as <-. split; reflexivity.
Defined.

(** C10 as stated fails at both ends of the range of [date], where
    [visits_by_month] raises [ValueError] and there are no values to add
    up. *)
Lemma visits_by_month_sum_raises_out_of_range :
  visits_by_month sample_repo "C002" 3 (Date 1 2 1) = Raise ValueError /\
  visits_by_month sample_repo "C002" 12 (Date 9999 12 1) = Raise ValueError.
Proof. split; reflexivity. Qed.

(** C5: the event of 2025-03-15 23:59:59.500000 is a valid datetime on
    [as_of]'s date, yet [visits_by_month] reports 0 for March 2025, while
    [count_visits] up to [time_max] of the same day counts it. *)
Theorem visits_by_month_drops_last_second :
  valid_datetime (Reservation.dt late_visit) /\
  date_of (Reservation.dt late_visit) = Date 2025 3 15 /\
  visits_by_month late_repo "C001" 1 (Date 2025 3 15) = Ok [((2025, 3), 0)] /\
  count_visits late_repo "C001"
    (combine (Date 2025 3 1) time_min) (combine (Date 2025 3 15) time_max) false
  = 1.
Proof.
  split; [split; [reflexivity | unfold valid_time; simpl; lia]|].
  repeat split; reflexivity.
Qed.

(** * Further properties of the code *)

(** ** The two month helpers *)

Lemma py_index_out_of_range {A} (l : list A) (i : Z) :
  Z.of_nat (length l) <= i -> py_index l i = Raise IndexError.
Proof.
  intros Hi. unfold py_index.
  destruct (Z.ltb_spec i 0) as [Hn|Hn]; [lia|].
  destruct (Z.ltb_spec i (Z.of_nat (length l))) as [Hlt|Hge]; [lia|].
  by rewrite andb_false_r.
Qed.

(** The loop of [months_ago] in closed form, for a month that is at most
    12. *)
Lemma months_ago_loop_closed (y m : Z) :
  m <= 12 -> months_ago_loop y m = (y + (m - 1) / 12, (m - 1) mod 12 + 1).
Proof.
  intros Hm.
  destruct (months_ago_loop_spec y m) as (Hi & Hpos & Hneg).
  destruct (Z_le_dec m 0) as [L|L].
  - specialize (Hneg L).
    destruct (months_ago_loop y m) as [y' m']. cbn [fst snd] in Hi, Hneg.
    unfold month_index in Hi. f_equal; Z.div_mod_to_equations; lia.
  - rewrite Hpos by lia. f_equal; Z.div_mod_to_equations; lia.
Qed.

Lemma add_months_spec (d : date) (k : Z) :
  valid_date d ->
  12 <= month_index (year d) (month d) + k <= last_month_index ->
  exists r, add_months d k = Ok r /\ valid_date r /\
    month_index (year r) (month r) = month_index (year d) (month d) + k /\
    day r = Z.min (day d) (last_day (year r) (month r)).
Proof.
  unfold last_month_index, month_index, MAXYEAR.
  intros Hd Hr. apply valid_date_iff in Hd. destruct Hd as (Hy & Hm & Hdd).
  unfold add_months.
  set (y' := year d + (month d - 1 + k) / 12).
  set (m' := (month d - 1 + k) mod 12 + 1).
  assert (Hm' : 1 <= m' <= 12) by (subst m'; Z.div_mod_to_equations; lia).
  assert (Hy' : 1 <= y' <= 9999) by (subst y'; Z.div_mod_to_equations; lia).
  rewrite month_table_lookup by exact Hm'. cbn [mbind res_bind].
  pose proof (days_in_month_bounds y' m' Hm') as Hb.
  rewrite new_date_ok by lia.
  eexists. split; [reflexivity|]. split; [apply valid_date_iff; simpl; lia|].
  simpl. split.
  - subst y' m'. Z.div_mod_to_equations; lia.
  - by rewrite days_in_month_last_day.
Qed.

Lemma add_months_out_of_range (d : date) (k : Z) :
  valid_date d ->
  month_index (year d) (month d) + k < 12 \/
  last_month_index < month_index (year d) (month d) + k ->
  add_months d k = Raise ValueError.
Proof.
  unfold last_month_index, month_index, MAXYEAR.
  intros Hd Hr. apply valid_date_iff in Hd. destruct Hd as (Hy & Hm & Hdd).
  unfold add_months.
  set (y' := year d + (month d - 1 + k) / 12).
  set (m' := (month d - 1 + k) mod 12 + 1).
  assert (Hm' : 1 <= m' <= 12) by (subst m'; Z.div_mod_to_equations; lia).
  rewrite month_table_lookup by exact Hm'. cbn [mbind res_bind].
  apply new_date_bad_year. subst y'. Z.div_mod_to_equations; lia.
Qed.



(** X2: with a negative number of months the loop of [months_ago] does not
    run: the result stays in the year of the input with the month moved
    forward, and once that month would pass December the table lookup raises
    [IndexError]. *)
Theorem months_ago_negative (d : date) (n : Z) :
  valid_date d -> n < 0 ->
  (month d - n <= 12 ->
   months_ago d n
   = Ok (Date (year d) (month d - n)
              (Z.min (day d) (last_day (year d) (month d - n))))) /\
  (12 < month d - n -> months_ago d n = Raise IndexError).
Proof.
  intros Hd Hn. apply valid_date_iff in Hd. destruct Hd as (Hy & Hm & Hdd).
  unfold months_ago.
  destruct (months_ago_loop_spec (year d) (month d - n)) as (_ & Hpos & _).
  rewrite Hpos by lia. split; intros Hr.
  - rewrite month_table_lookup by lia. cbn [mbind res_bind].
    pose proof (days_in_month_bounds (year d) (month d - n) ltac:(lia)).
    rewrite <- days_in_month_last_day by lia.
    apply new_date_ok; lia.
  - rewrite py_index_out_of_range; [reflexivity|]. simpl. lia.
Qed.

Lemma months_ago_negative_witness :
  (3 - -2 <= 12 ->
   months_ago (Date 2025 3 31) (-2)
   = Ok (Date 2025 (3 - -2) (Z.min 31 (last_day 2025 (3 - -2))))) /\
  (12 < 3 - -2 -> months_ago (Date 2025 3 31) (-2) = Raise IndexError).
Proof.
  apply (months_ago_negative (Date 2025 3 31) (-2)); [reflexivity | lia].
Defined.



(** X4: the two hand-written month helpers agree: for a valid date and
    [n >= 0], [months_ago d n] is [add_months d (-n)], result and exception
    alike. *)
Theorem months_ago_is_add_months (d : date) (n : Z) :
  valid_date d -> 0 <= n -> months_ago d n = add_months d (- n).
Proof.
  intros Hd Hn. apply valid_date_iff in Hd. destruct Hd as (Hy & Hm & Hdd).
  unfold months_ago, add_months.
  rewrite months_ago_loop_closed by lia.
  replace (month d - 1 + - n) with (month d - n - 1) by lia.
  reflexivity.
Qed.

Lemma months_ago_is_add_months_witness :
  months_ago (Date 2024 3 31) 13 = add_months (Date 2024 3 31) (- 13).
Proof.
  apply (months_ago_is_add_months (Date 2024 3 31) 13); [reflexivity | lia].
Defined.

(** ** Rules: normalization and precedence *)

Lemma py_sorted_fixed {A K} (lt : K -> K -> bool) (key : A -> K)
    (reverse : bool) (l : list A) :
  Sorted (in_order lt key reverse) l -> py_sorted lt key reverse l = l.
Proof.
  induction 1 as [|x l Hs IH Hhd]; [reflexivity|].
  simpl. fold (py_sorted lt key reverse l). rewrite IH.
  destruct Hhd as [|y l' Hxy]; [reflexivity|].
  simpl. unfold in_order in Hxy. by rewrite Hxy.
Qed.

Lemma min_visits_ge_trans :
  Transitive (fun a b : LoyaltyRule.t =>
                LoyaltyRule.min_visits a >= LoyaltyRule.min_visits b).
Proof. intros a b c. lia. Qed.

(** On rules in descending order of [min_visits] the loop of [classify]
    returns the tier of a rule of the window with the greatest threshold the
    count reaches, or the baseline tier when the count reaches none. *)
Lemma apply_rules_sorted_max (w c : Z) (l : list LoyaltyRule.t) :
  StronglySorted (fun a b => LoyaltyRule.min_visits a >= LoyaltyRule.min_visits b) l ->
  (exists r, r ∈ l /\
     VisitsInWindowStrategy.apply_rules w c l = LoyaltyRule.resulting_tier r /\
     LoyaltyRule.window_months r = w /\ LoyaltyRule.min_visits r <= c /\
     forall r', r' ∈ l -> LoyaltyRule.window_months r' = w ->
       LoyaltyRule.min_visits r' <= c ->
       LoyaltyRule.min_visits r' <= LoyaltyRule.min_visits r) \/
  (VisitsInWindowStrategy.apply_rules w c l = VisitsInWindowStrategy.regular /\
   forall r, r ∈ l -> LoyaltyRule.window_months r = w ->
     c < LoyaltyRule.min_visits r).
Proof.
  induction 1 as [|x l Hs IH Hall]; simpl.
  - right. split; [reflexivity|]. intros r Hr. by apply elem_of_nil in Hr.
  - destruct (Z.eqb_spec (LoyaltyRule.window_months x) w) as [Hw|Hw]; simpl.
    + unfold LoyaltyRule.applies.
      destruct (Z.geb_spec c (LoyaltyRule.min_visits x)) as [Hc|Hc].
      * left. exists x. split; [by left|]. repeat split; try done; try lia.
        intros r' Hr' _ _. apply elem_of_cons in Hr' as [->|Hr']; [lia|].
        rewrite Forall_forall in Hall. specialize (Hall _ Hr'). lia.
      * destruct IH as [(r & Hr & Ht & Hrw & Hrc & Hmax)|[Ht Hno]].
        -- left. exists r. split; [by right|]. repeat split; try done.
           intros r' Hr' Hw' Hc'. apply elem_of_cons in Hr' as [->|Hr']; [lia|].
           by apply Hmax.
        -- right. split; [done|]. intros r Hr Hrw.
           apply elem_of_cons in Hr as [->|Hr]; [lia|]. by apply Hno.
    + destruct IH as [(r & Hr & Ht & Hrw & Hrc & Hmax)|[Ht Hno]].
      * left. exists r. split; [by right|]. repeat split; try done.
        intros r' Hr' Hw' Hc'. apply elem_of_cons in Hr' as [->|Hr']; [done|].
        by apply Hmax.
      * right. split; [done|]. intros r Hr Hrw.
        apply elem_of_cons in Hr as [->|Hr]; [done|]. by apply Hno.
Qed.

(** X5: the most demanding tier wins. With the rules as [set_rules] stores
    them (the way [ensure_engine] builds the strategy), inside the range of
    [date], [classify] returns the tier of a rule of the window whose
    [min_visits] is the greatest among the rules of that window that the
    visit count reaches, and the baseline tier when the count reaches no rule
    of the window. *)
Theorem classify_picks_greatest_threshold {R : Type} `{VisitRepository R}
    (cfg : Config.t) (rs : list LoyaltyRule.t) (w : Z) (u : bool)
    (customer : Customer.t) (as_of : date) (visits : R) :
  let self := VisitsInWindowStrategy.Build_t
                (Config.get_rules (Config.set_rules cfg rs)) w u in
  valid_date as_of -> 0 <= w ->
  12 <= month_index (year as_of) (month as_of) - w ->
  exists start_date tier,
    months_ago as_of w = Ok start_date /\
    VisitsInWindowStrategy.classify self customer as_of visits = Ok tier /\
    let c := count_visits visits (Customer.id customer)
               (combine start_date time_min) (combine as_of time_max) u in
    ((exists r, r ∈ rs /\ tier = LoyaltyRule.resulting_tier r /\
        LoyaltyRule.window_months r = w /\ LoyaltyRule.min_visits r <= c /\
        forall r', r' ∈ rs -> LoyaltyRule.window_months r' = w ->
          LoyaltyRule.min_visits r' <= c ->
          LoyaltyRule.min_visits r' <= LoyaltyRule.min_visits r) \/
     (tier = {| tier_name := "Regular"; priority := 0 |} /\
      forall r, r ∈ rs -> LoyaltyRule.window_months r = w ->
        c < LoyaltyRule.min_visits r)).
Proof.
  intros self Hd Hw Hr.
  destruct (months_ago_spec as_of w Hd Hw Hr) as (sd & Hsd & _).
  exists sd. eexists. split; [exact Hsd|]. split.
  { unfold VisitsInWindowStrategy.classify. cbn [VisitsInWindowStrategy.window_months self].
    rewrite Hsd. cbn [mbind res_bind]. reflexivity. }
  intros c. cbn [VisitsInWindowStrategy.unique_per_day
                 VisitsInWindowStrategy.window_months
                 VisitsInWindowStrategy.rules_desc self]. fold c.
  set (stored := Config.get_rules (Config.set_rules cfg rs)).
  pose proof (set_rules_perm cfg rs) as Hp. fold stored in Hp.
  pose proof (set_rules_sorted cfg rs) as Hs. fold stored in Hs.
  apply (Sorted_StronglySorted min_visits_ge_trans) in Hs.
  destruct (apply_rules_sorted_max w c stored Hs)
    as [(r & Hin & Ht & Hrw & Hrc & Hmax)|[Ht Hno]].
  - left. exists r. split; [by rewrite Hp|]. repeat split; try done.
    intros r' Hr'. apply Hmax. by rewrite <- Hp.
  - right. split; [exact Ht|]. intros r Hin. apply Hno. by rewrite <- Hp.
Qed.

Lemma classify_picks_greatest_threshold_witness :
  exists start_date tier,
    months_ago (Date 2025 3 15) 3 = Ok start_date /\
    VisitsInWindowStrategy.classify
      (VisitsInWindowStrategy.Build_t
         (Config.get_rules (Config.set_rules Config.init [rule_vip2; rule_super4]))
         3 true)
      ana (Date 2025 3 15) sample_repo = Ok tier /\
    tier = super_vip.
Proof.
  destruct (classify_picks_greatest_threshold Config.init [rule_vip2; rule_super4]
              3 true ana (Date 2025 3 15) sample_repo)
    as (sd & tier & Hsd & Hc & _);
    [reflexivity | lia | vm_compute; discriminate |].
  exists sd, tier. split; [exact Hsd|]. split; [exact Hc|].
  vm_compute in Hc. by injection Hc as <-.
Defined.

(** X6: [set_rules] keeps the input order among rules with the same
    [min_visits] (the sort is stable, also in reverse), which is what decides
    between two rules with one threshold. *)
Theorem set_rules_stable (cfg : Config.t) (rs : list LoyaltyRule.t) (k : Z) :
  filter (fun r => LoyaltyRule.min_visits r = k)
         (Config.get_rules (Config.set_rules cfg rs))
  = filter (fun r => LoyaltyRule.min_visits r = k) rs.
Proof. apply py_sorted_stable, Zltb_asym. Qed.

(** X7: normalizing twice changes nothing: [set_rules] on what [get_rules]
    returns stores the same list again. *)
Theorem set_rules_get_rules_idempotent (cfg cfg' : Config.t)
    (rs : list LoyaltyRule.t) :
  Config.get_rules (Config.set_rules cfg' (Config.get_rules (Config.set_rules cfg rs)))
  = Config.get_rules (Config.set_rules cfg rs).
Proof.
  unfold Config.get_rules, Config.set_rules. simpl.
  apply py_sorted_fixed, py_sorted_sorted, Zltb_asym.
Qed.

(** X8: a customer without any reservation gets the baseline tier whenever
    every rule asks for at least one visit (as the rule editor enforces) and
    the window start is a date. *)
Theorem classify_no_visits_regular {R : Type} `{VisitRepository R}
    (self : VisitsInWindowStrategy.t) (customer : Customer.t) (as_of : date)
    (visits : R) :
  Forall (fun r => 1 <= LoyaltyRule.min_visits r)
         (VisitsInWindowStrategy.rules_desc self) ->
  (forall r, r ∈ get_reservations visits ->
     Reservation.customer_id r <> Customer.id customer) ->
  valid_date as_of ->
  0 <= VisitsInWindowStrategy.window_months self ->
  12 <= month_index (year as_of) (month as_of)
        - VisitsInWindowStrategy.window_months self ->
  VisitsInWindowStrategy.classify self customer as_of visits
  = Ok {| tier_name := "Regular"; priority := 0 |}.
Proof.
  intros Hmin Hno Hd Hw Hr.
  destruct (months_ago_spec as_of _ Hd Hw Hr) as (sd & Hsd & _).
  unfold VisitsInWindowStrategy.classify. rewrite Hsd. cbn [mbind res_bind].
  rewrite count_visits_none.
  2:{ intros r Hin (Hc & _). by apply (Hno r). }
  f_equal. induction Hmin as [|r rs Hr1 Hrs IH]; simpl; [reflexivity|].
  destruct (negb _); [exact IH|].
  unfold LoyaltyRule.applies.
  destruct (Z.geb_spec 0 (LoyaltyRule.min_visits r)); [lia | exact IH].
Qed.

Lemma classify_no_visits_regular_witness :
  VisitsInWindowStrategy.classify default_strategy zoe (Date 2025 3 15) sample_repo
  = Ok {| tier_name := "Regular"; priority := 0 |}.
Proof.
  apply (classify_no_visits_regular default_strategy zoe (Date 2025 3 15)
           sample_repo).
  - repeat constructor; simpl; lia.
  - intros r Hr. simpl in Hr. unfold get_reservations, csv_visit_repository in Hr.
    simpl in Hr. set_unfold. intuition subst; discriminate.
  - reflexivity.
  - simpl; lia.
  - vm_compute; discriminate.
Defined.

(** ** The rule editor's order and [set_rules] *)

Lemma pair_lt_asym (a b : Z * Z) : pair_lt a b = true -> pair_lt b a = false.
Proof.
  unfold pair_lt. rewrite (Z.eqb_sym b.1 a.1).
  destruct (Z.eqb_spec a.1 b.1); apply Zltb_asym.
Qed.

(** Two rules in the editor's order: the first does not come before the
    second in priority, nor, at equal priority, in [min_visits]. *)
Lemma editor_in_order_iff (a b : LoyaltyRule.t) :
  in_order pair_lt editor_key true a b <->
  priority (LoyaltyRule.resulting_tier a) > priority (LoyaltyRule.resulting_tier b) \/
  (priority (LoyaltyRule.resulting_tier a) = priority (LoyaltyRule.resulting_tier b) /\
   LoyaltyRule.min_visits a >= LoyaltyRule.min_visits b).
Proof.
  unfold in_order, precedes, pair_lt, editor_key. cbn [fst snd].
  destruct (Z.eqb_spec (priority (LoyaltyRule.resulting_tier a))
                       (priority (LoyaltyRule.resulting_tier b))) as [He|Hne].
  - rewrite Z.ltb_nlt. lia.
  - rewrite Z.ltb_nlt. lia.
Qed.

Lemma editor_in_order_trans : Transitive (in_order pair_lt editor_key true).
Proof.
  intros a b c Hab Hbc. apply editor_in_order_iff.
  apply editor_in_order_iff in Hab. apply editor_in_order_iff in Hbc. lia.
Qed.

Lemma StronglySorted_filter {A} (Rel : A -> A -> Prop) (P : A -> Prop)
    `{forall x, Decision (P x)} (l : list A) :
  StronglySorted Rel l -> StronglySorted Rel (filter P l).
Proof.
  induction 1 as [|x l Hs IH Hall]; [constructor|].
  rewrite filter_cons. destruct (decide (P x)); [|exact IH].
  constructor; [exact IH|].
  rewrite Forall_forall in *. intros y Hy.
  apply list_elem_of_filter in Hy as [_ Hy]. by apply Hall.
Qed.

Lemma StronglySorted_impl_on {A} (Rel Rel' : A -> A -> Prop) (P : A -> Prop)
    (l : list A) :
  (forall a b, P a -> P b -> Rel a b -> Rel' a b) ->
  Forall P l -> StronglySorted Rel l -> StronglySorted Rel' l.
Proof.
  intros Himpl HP. induction 1 as [|x l Hs IH Hall]; [constructor|].
  apply Forall_cons in HP as [Hx HP].
  constructor; [by apply IH|].
  rewrite Forall_forall in *. intros y Hy. apply Himpl; auto.
Qed.

(** X9: saving rules that the editor has just ordered (priority first, then
    [min_visits], both descending) stores them in descending [min_visits],
    and among rules with the same [min_visits] the higher priority comes
    first: [set_rules] re-sorts by [min_visits] alone, and its stability keeps
    the editor's order inside each group. *)
Theorem editor_order_survives_set_rules (cfg : Config.t)
    (work : list LoyaltyRule.t) :
  let out := Config.get_rules (Config.set_rules cfg (editor_sort work)) in
  Permutation work out /\
  Sorted (fun a b => LoyaltyRule.min_visits a >= LoyaltyRule.min_visits b) out /\
  forall k,
    Sorted (fun a b => priority (LoyaltyRule.resulting_tier a)
                       >= priority (LoyaltyRule.resulting_tier b))
           (filter (fun r => LoyaltyRule.min_visits r = k) out).
Proof.
  intros out. split; [|split].
  - unfold out. rewrite <- set_rules_perm. apply py_sorted_perm.
  - apply set_rules_sorted.
  - intros k. unfold out, Config.get_rules, Config.set_rules.
    cbn [Config.rules].
    rewrite (py_sorted_stable Z.ltb LoyaltyRule.min_visits true Zltb_asym).
    apply StronglySorted_Sorted.
    apply (StronglySorted_impl_on (in_order pair_lt editor_key true) _
             (fun r => LoyaltyRule.min_visits r = k)).
    + intros a b Ha Hb Hab. apply editor_in_order_iff in Hab. lia.
    + apply Forall_forall. intros r Hr.
      by apply list_elem_of_filter in Hr as [Hr _].
    + apply StronglySorted_filter.
      apply (Sorted_StronglySorted editor_in_order_trans).
      apply py_sorted_sorted, pair_lt_asym.
Qed.

(** ** The head of the ranking *)

Lemma ranked_counts_trans (lower : string -> string) :
  Transitive (fun x y : Customer.t * Z => x.2 >= y.2).
Proof. intros a b c. lia. Qed.

(** X10: inside the range of [date], the first entry of the ranking has the
    greatest visit count of all known customers, and the counts never
    increase down the list. *)
Theorem ranking_first_has_most_visits {R : Type} `{VisitRepository R}
    (lower : string -> string) (self : ReportService.t R)
    (months : Z) (as_of : date) :
  valid_date as_of -> 1 <= months ->
  12 <= month_index (year as_of) (month as_of) - months ->
  exists start_date rows,
    months_ago as_of months = Ok start_date /\
    ReportService.ranking_top_customers lower self months as_of = Ok rows /\
    StronglySorted (fun x y => x.2 >= y.2) rows /\
    forall c v rest, rows = (c, v) :: rest ->
      forall c', c' ∈ InMemoryCustomerRepository.find_all
                        (ReportService.customers self) ->
        count_visits (ReportService.repo self) (Customer.id c')
          (combine start_date time_min) (combine as_of time_max) true <= v.
Proof.
  intros Hd Hm Hr.
  destruct (ranking_in_range lower self months as_of Hd Hm Hr) as (sd & Hsd & Hrows).
  exists sd. eexists. split; [exact Hsd|]. split; [exact Hrows|].
  set (rows := py_sorted _ _ _ _).
  assert (Hss : StronglySorted (fun x y : Customer.t * Z => x.2 >= y.2) rows).
  { apply (Sorted_StronglySorted (ranked_counts_trans lower)).
    eapply Sorted_impl; [|apply py_sorted_sorted, key_lt_asym].
    intros x y Hxy. apply (in_order_ranked lower) in Hxy.
    cbn beta. destruct Hxy as [Hgt|[Heq _]]; lia. }
  split; [exact Hss|].
  intros c v rest Hrest c' Hc'.
  set (row' := (c', count_visits (ReportService.repo self) (Customer.id c')
                      (combine sd time_min) (combine as_of time_max) true)).
  assert (Hin : row' ∈ rows).
  { unfold rows. rewrite <- py_sorted_perm.
    apply list_elem_of_fmap. by exists c'. }
  rewrite Hrest in Hss, Hin. apply StronglySorted_inv in Hss as [_ Hall].
  apply elem_of_cons in Hin as [Heq|Hin].
  - apply (f_equal snd) in Heq. cbn [snd row'] in Heq. rewrite <- Heq.
    apply Z.le_refl.
  - rewrite Forall_forall in Hall. specialize (Hall _ Hin).
    unfold row' in Hall. cbn [snd] in Hall. lia.
Qed.

Lemma ranking_first_has_most_visits_witness :
  exists start_date rows,
    months_ago (Date 2025 3 16) 1 = Ok start_date /\
    ReportService.ranking_top_customers ascii_lower sample_report 1 (Date 2025 3 16)
    = Ok rows /\
    StronglySorted (fun x y => x.2 >= y.2) rows.
Proof.
  destruct (ranking_first_has_most_visits ascii_lower sample_report 1 (Date 2025 3 16))
    as (sd & rows & Hsd & Hrows & Hss & _);
    [reflexivity | lia | vm_compute; discriminate |].
  exists sd, rows. auto.
Defined.

(** ** The engine *)

Section EngineFacts.
Context {S R : Type} `{RuleStrategy S} `{VisitRepository R}.

Lemma classify_each_ok (self : LoyaltyEngine.t S R) (as_of : date)
    (f : Customer.t -> LoyaltyTier) (cs : list Customer.t)
    (out : list (string * LoyaltyTier)) :
  (forall c, c ∈ cs -> LoyaltyEngine.classify self c as_of = Ok (f c)) ->
  NoDup (Customer.id <$> cs) ->
  (forall c, c ∈ cs -> Customer.id c ∉ out.*1) ->
  LoyaltyEngine.classify_each self as_of cs out
  = Ok (out ++ ((fun c => (Customer.id c, f c)) <$> cs)).
Proof.
  revert out. induction cs as [|c cs IH]; intros out Hok Hnd Hfresh; simpl.
  - by rewrite app_nil_r.
  - rewrite (Hok c) by (by left). cbn [mbind res_bind].
    rewrite fmap_cons in Hnd. apply NoDup_cons in Hnd as [Hc Hnd].
    rewrite dict_set_fresh by (apply Hfresh; by left).
    rewrite IH.
    + by rewrite <- app_assoc.
    + intros c' Hc'. apply Hok. by right.
    + exact Hnd.
    + intros c' Hc'. rewrite fmap_app, elem_of_app. intros [Hin|Heq].
      * revert Hin. apply Hfresh. by right.
      * apply list_elem_of_fmap in Heq as (kv & Heq & Hkv).
        apply list_elem_of_singleton in Hkv. subst kv. cbn [fst] in Heq.
        apply Hc. rewrite <- Heq. apply list_elem_of_fmap. by exists c'.
Qed.

Lemma classify_each_raise (self : LoyaltyEngine.t S R) (as_of : date) (e : exn)
    (cs : list Customer.t) (out : list (string * LoyaltyTier)) :
  cs <> [] ->
  (forall c, c ∈ cs -> LoyaltyEngine.classify self c as_of = Raise e) ->
  LoyaltyEngine.classify_each self as_of cs out = Raise e.
Proof.
  destruct cs as [|c cs]; [done|]. intros _ Hall. simpl.
  rewrite (Hall c) by (by left). reflexivity.
Qed.

End EngineFacts.

(** X11: [classify_all] on the engine that [ensure_engine] builds (window of
    3 months). When the customers have pairwise distinct ids and the date
    three months before [as_of] exists, it returns one entry per customer, in
    the order of [find_all], each holding the tier [classify] returns for that
    customer; when that date does not exist and there is at least one
    customer, it raises [ValueError]. *)
Theorem classify_all_entries (cfg : Config.t) (repo : CsvVisitRepository)
    (customers_repo : InMemoryCustomerRepository.t) (as_of : date) :
  let eng := ensure_engine cfg repo customers_repo in
  let cs := InMemoryCustomerRepository.find_all customers_repo in
  valid_date as_of ->
  (12 <= month_index (year as_of) (month as_of) - 3 ->
   NoDup (Customer.id <$> cs) ->
   exists d,
     LoyaltyEngine.classify_all eng as_of = Ok d /\
     d.*1 = Customer.id <$> cs /\
     forall c, c ∈ cs ->
       exists tier, LoyaltyEngine.classify eng c as_of = Ok tier /\
                    (Customer.id c, tier) ∈ d) /\
  (month_index (year as_of) (month as_of) - 3 < 12 -> cs <> [] ->
   LoyaltyEngine.classify_all eng as_of = Raise ValueError).
Proof.
  intros eng cs Hd. split.
  - intros Hr Hnd.
    set (strat := VisitsInWindowStrategy.Build_t (Config.get_rules cfg) 3 true).
    destruct (months_ago_spec as_of 3 Hd ltac:(lia) Hr) as (sd & Hsd & _).
    set (f := fun c : Customer.t =>
           VisitsInWindowStrategy.apply_rules 3
             (count_visits repo (Customer.id c) (combine sd time_min)
                (combine as_of time_max) true)
             (Config.get_rules cfg)).
    assert (Hok : forall c, LoyaltyEngine.classify eng c as_of = Ok (f c)).
    { intros c. unfold LoyaltyEngine.classify, strategy_classify,
        visits_in_window_strategy, VisitsInWindowStrategy.classify.
      cbn [LoyaltyEngine.strategy LoyaltyEngine.repo eng ensure_engine
           VisitsInWindowStrategy.window_months
           VisitsInWindowStrategy.unique_per_day
           VisitsInWindowStrategy.rules_desc].
      rewrite Hsd. reflexivity. }
    exists ((fun c => (Customer.id c, f c)) <$> cs). split; [|split].
    + unfold LoyaltyEngine.classify_all.
      cbn [LoyaltyEngine.customers eng ensure_engine]. fold cs.
      rewrite (classify_each_ok eng as_of f cs []); [reflexivity | | exact Hnd |].
      * intros c _. apply Hok.
      * intros c _. apply not_elem_of_nil.
    + by rewrite <- list_fmap_compose.
    + intros c Hc. exists (f c). split; [apply Hok|].
      apply list_elem_of_fmap. by exists c.
  - intros Hr Hne. unfold LoyaltyEngine.classify_all.
    cbn [LoyaltyEngine.customers eng ensure_engine]. fold cs.
    apply classify_each_raise; [exact Hne|].
    intros c _. unfold LoyaltyEngine.classify, strategy_classify,
      visits_in_window_strategy, VisitsInWindowStrategy.classify.
    cbn [LoyaltyEngine.strategy LoyaltyEngine.repo eng ensure_engine
         VisitsInWindowStrategy.window_months].
    by rewrite (months_ago_underflow as_of 3 Hd ltac:(lia) Hr).
Qed.

Lemma classify_all_entries_witness :
  LoyaltyEngine.classify_all
    (ensure_engine Config.init sample_repo
       (InMemoryCustomerRepository.Build_t (_customers sample_repo)))
    (Date 2025 3 15)
  = Ok [("C001", super_vip); ("C002", {| tier_name := "Regular"; priority := 0 |});
        ("C003", {| tier_name := "Regular"; priority := 0 |})] /\
  LoyaltyEngine.classify_all
    (ensure_engine Config.init sample_repo
       (InMemoryCustomerRepository.Build_t (_customers sample_repo)))
    (Date 1 2 15)
  = Raise ValueError.
Proof.
  split.
  - destruct (classify_all_entries Config.init sample_repo
                (InMemoryCustomerRepository.Build_t (_customers sample_repo))
                (Date 2025 3 15)) as [Hin _]; [reflexivity|].
    destruct Hin as (d & Hd & _); [vm_compute; discriminate | compute_done |].
    rewrite Hd. vm_compute in Hd. by injection Hd as <-.
  - destruct (classify_all_entries Config.init sample_repo
                (InMemoryCustomerRepository.Build_t (_customers sample_repo))
                (Date 1 2 15)) as [_ Hout]; [reflexivity|].
    apply Hout; [reflexivity | discriminate].
Defined.

(** ** Loading the reservations *)

Lemma dict_get_elem_of {K V} `{EqDecision K} (d : list (K * V)) (k : K) :
  k ∈ d.*1 -> exists v, dict_get d k = Some v /\ (k, v) ∈ d.
Proof.
  unfold dict_get. induction d as [|[k' v'] d IH]; simpl.
  - intros Hk. by apply elem_of_nil in Hk.
  - intros Hk. destruct (decide (k' = k)) as [->|Hne].
    + rewrite bool_decide_eq_true_2 by done. exists v'. split; [done | by left].
    + rewrite bool_decide_eq_false_2 by done.
      apply elem_of_cons in Hk as [Hk|Hk]; [congruence|].
      destruct (IH Hk) as (v & Hv & Hin). exists v. split; [done | by right].
Qed.

Lemma dict_get_None {K V} `{EqDecision K} (d : list (K * V)) (k : K) :
  k ∉ d.*1 -> dict_get d k = None.
Proof.
  unfold dict_get. induction d as [|[k' v'] d IH]; simpl; [done|].
  intros Hk. apply not_elem_of_cons in Hk as [Hne Hk].
  rewrite bool_decide_eq_false_2 by congruence. by apply IH.
Qed.

Section LoadFacts.
Variable strip : string -> string.
Variable strptime : string -> string -> res datetime.
Variable py_int : string -> res Z.

Local Abbreviation lrow := (load_row strip strptime py_int).
Local Abbreviation lrows := (load_rows strip strptime py_int).

Lemma row_values_positive (dt_str size_str : string) (dt : datetime) (size : Z) :
  row_values strip strptime py_int dt_str size_str = Some (dt, size) ->
  0 < size.
Proof.
  unfold row_values. destruct (parse_iso _ _ _); [|discriminate].
  destruct (py_int size_str) as [n|]; [|discriminate].
  destruct (Z.leb_spec n 0); [discriminate|]. intros [= _ <-]. lia.
Qed.

Lemma load_inv_seen (repo : CsvVisitRepository) (seen : gset string)
    (rid : string) :
  load_inv (repo, seen) -> load_inv (repo, {[rid]} ∪ seen).
Proof.
  intros (Hnd & Hres & Hck & Hcid). repeat split; try done; cbn [fst snd] in *.
  - apply elem_of_union_r. by apply Hres.
  - by apply Hres.
  - by apply Hres.
  - by apply Hres.
Qed.

(** What one turn of the loop does, case by case. *)
Lemma load_row_cases (row : CsvRow.t) (st : CsvVisitRepository * gset string) :
  (lrow row st = (st, Some AttributeError) /\ CsvRow.reservation_id row = None) \/
  (exists raw, CsvRow.reservation_id row = Some raw /\
     (strip raw = "" \/ strip raw ∈ snd st) /\ lrow row st = (st, None)) \/
  (exists raw, CsvRow.reservation_id row = Some raw /\
     strip raw <> "" /\ (strip raw ∉ st.2) /\
     ((lrow row st = ((st.1, {[strip raw]} ∪ st.2), Some AttributeError) /\
       (CsvRow.customer_id row = None \/ CsvRow.name row = None \/
        CsvRow.email row = None \/ CsvRow.phone row = None \/
        CsvRow.datetime row = None \/ CsvRow.party_size row = None)) \/
      (lrow row st = ((st.1, {[strip raw]} ∪ st.2), None) /\
       rejected strip strptime py_int row) \/
      (exists cid_raw name_raw email_raw phone_raw dt_raw size_raw dt size,
         CsvRow.customer_id row = Some cid_raw /\
         CsvRow.name row = Some name_raw /\
         CsvRow.email row = Some email_raw /\
         CsvRow.phone row = Some phone_raw /\
         CsvRow.datetime row = Some dt_raw /\
         CsvRow.party_size row = Some size_raw /\
         row_values strip strptime py_int (strip dt_raw) (strip size_raw)
         = Some (dt, size) /\
         lrow row st
         = (({| _reservations :=
                  _reservations st.1
                  ++ [Reservation.Build_t (strip raw) (strip cid_raw) dt size];
                _customers :=
                  if bool_decide (strip cid_raw ∈ (_customers st.1).*1)
                  then _customers st.1
                  else dict_set (_customers st.1) (strip cid_raw)
                         (Customer.Build_t (strip cid_raw) (strip name_raw)
                            (strip email_raw) (strip phone_raw)) |},
             {[strip raw]} ∪ st.2), None)))).
Proof.
  unfold load_row.
  destruct (CsvRow.reservation_id row) as [raw|]; [|by left].
  right.
  destruct (decide (strip raw = "")) as [He|He].
  { left. exists raw. rewrite (bool_decide_eq_true_2 _ He). simpl. auto. }
  destruct (decide (strip raw ∈ st.2)) as [Hs|Hs].
  { left. exists raw. rewrite (bool_decide_eq_true_2 _ Hs), orb_true_r. auto. }
  right. exists raw.
  rewrite (bool_decide_eq_false_2 _ He), (bool_decide_eq_false_2 _ Hs). simpl.
  split; [done|]. split; [done|]. split; [done|].
  destruct (CsvRow.customer_id row) as [cid_raw|]; [|left; auto].
  destruct (CsvRow.name row) as [name_raw|]; [|left; auto].
  destruct (CsvRow.email row) as [email_raw|]; [|left; auto 6].
  destruct (CsvRow.phone row) as [phone_raw|]; [|left; auto 6].
  destruct (CsvRow.datetime row) as [dt_raw|] eqn:Edt; [|left; auto 8].
  destruct (CsvRow.party_size row) as [size_raw|] eqn:Esz; [|left; auto 8].
  right.
  destruct (row_values strip strptime py_int (strip dt_raw) (strip size_raw))
    as [[dt size]|] eqn:Ev.
  - right. exists cid_raw, name_raw, email_raw, phone_raw, dt_raw, size_raw, dt, size.
    repeat split; reflexivity || exact Ev.
  - left. split; [reflexivity|].
    intros dt_raw' size_raw' Hdt Hsz. rewrite Edt in Hdt. rewrite Esz in Hsz.
    injection Hdt as <-. injection Hsz as <-. exact Ev.
Qed.

Lemma load_row_inv (row : CsvRow.t) (st : CsvVisitRepository * gset string) :
  load_inv st -> load_inv (lrow row st).1.
Proof.
  intros Hinv. destruct st as [repo seen].
  destruct (load_row_cases row (repo, seen))
    as [[-> _]|[(raw & _ & _ & ->)|(raw & _ & He & Hs & Hcases)]]; try done.
  destruct Hcases as [[-> _]|[[-> _]|Hacc]]; cbn [fst snd] in *;
    try (by apply load_inv_seen).
  destruct Hacc as (cid_raw & name_raw & email_raw & phone_raw & dt_raw
                    & size_raw & dt & size & _ & _ & _ & _ & _ & _ & Hv & ->).
  cbn [fst snd].
  destruct Hinv as (Hnd & Hres & Hck & Hcid). cbn [fst snd] in *.
  set (cid := strip cid_raw) in *.
  set (custs := if bool_decide (cid ∈ (_customers repo).*1)
                then _customers repo
                else dict_set (_customers repo) cid
                       (Customer.Build_t cid (strip name_raw)
                          (strip email_raw) (strip phone_raw))).
  assert (Hkeys : forall k, k ∈ (_customers repo).*1 \/ k = cid -> k ∈ custs.*1).
  { intros k Hk. unfold custs. case_bool_decide as Hin.
    - destruct Hk as [Hk| ->]; done.
    - rewrite dict_set_fresh by done. rewrite fmap_app, elem_of_app.
      destruct Hk as [Hk| ->]; [by left|]. right. by left. }
  unfold load_inv. cbn [fst snd _reservations _customers].
  split; [|split; [|split]].
  - rewrite fmap_app. apply NoDup_app. split; [exact Hnd|]. split.
    + intros x Hx Hx'. apply list_elem_of_singleton in Hx'. subst x.
      apply list_elem_of_fmap in Hx as (r & Hr & Hin). cbn in Hr.
      apply Hs. rewrite Hr. by apply Hres.
    + apply NoDup_singleton.
  - intros r Hr. apply elem_of_app in Hr as [Hr|Hr].
    + destruct (Hres r Hr) as (H1 & H2 & H3 & H4).
      split; [by apply elem_of_union_r|]. split; [done|]. split; [done|].
      apply Hkeys. by left.
    + apply list_elem_of_singleton in Hr. subst r. cbn.
      split; [apply elem_of_union_l; by apply elem_of_singleton|].
      split; [done|]. split; [by apply (row_values_positive _ _ _ _ Hv)|].
      apply Hkeys. by right.
  - unfold custs. case_bool_decide as Hin; [exact Hck|].
    rewrite dict_set_fresh by done. rewrite fmap_app.
    apply NoDup_app. split; [exact Hck|]. split; [|apply NoDup_singleton].
    intros x Hx Hx'. apply list_elem_of_singleton in Hx'. by subst x.
  - intros k c. unfold custs. case_bool_decide as Hin; [apply Hcid|].
    rewrite dict_set_fresh by done. rewrite elem_of_app.
    intros [Hkc|Hkc]; [by apply Hcid|].
    apply list_elem_of_singleton in Hkc. by injection Hkc as -> ->.
Qed.

Lemma load_rows_inv (rs : list CsvRow.t) (st : CsvVisitRepository * gset string) :
  load_inv st -> load_inv (lrows rs st).1.
Proof.
  revert st. induction rs as [|row rs IH]; intros st Hinv; simpl; [done|].
  pose proof (load_row_inv row st Hinv) as Hrow.
  destruct (lrow row st) as [st' [e|]]; [exact Hrow|]. by apply IH.
Qed.

Lemma load_inv_new : load_inv (new_repository, ∅).
Proof.
  unfold load_inv, new_repository. cbn [fst snd _reservations _customers].
  split; [apply NoDup_nil_2|]. split; [|split; [apply NoDup_nil_2|]].
  - intros r Hr. by apply elem_of_nil in Hr.
  - intros k c Hkc. by apply elem_of_nil in Hkc.
Qed.

Lemma load_inv_result (file : option csv_file) :
  exists seen,
    load_inv ((load strip strptime py_int new_repository file).1, seen).
Proof.
  unfold load. destruct file as [f|]; [|exists ∅; apply load_inv_new].
  destruct (forallb _ _); [|exists ∅; apply load_inv_new].
  pose proof (load_rows_inv (rows f) _ load_inv_new) as Hinv.
  destruct (lrows (rows f) (new_repository, ∅)) as [[repo seen] e].
  by exists seen.
Qed.

End LoadFacts.

(** X12: whatever the file holds, and also when the call ends in an
    exception, [load] on a new repository leaves reservations with pairwise
    distinct, non-empty ids and positive party sizes; [find_by_id] on the
    customers of [get_customers] finds, for every reservation, a customer
    with that reservation's [customer_id]; and the customers of [find_all]
    have pairwise distinct ids. *)
Theorem load_keeps_repository_consistent
    (strip : string -> string) (strptime : string -> string -> res datetime)
    (py_int : string -> res Z) (file : option csv_file) :
  let repo := (load strip strptime py_int new_repository file).1 in
  let customers_repo := InMemoryCustomerRepository.Build_t (get_customers repo) in
  NoDup (Reservation.id <$> get_reservations repo) /\
  (forall r, r ∈ get_reservations repo ->
     Reservation.id r <> "" /\ 0 < Reservation.party_size r /\
     exists c,
       InMemoryCustomerRepository.find_by_id customers_repo
         (Reservation.customer_id r) = Some c /\
       Customer.id c = Reservation.customer_id r) /\
  NoDup (Customer.id <$> InMemoryCustomerRepository.find_all customers_repo).
Proof.
  intros repo customers_repo.
  destruct (load_inv_result strip strptime py_int file)
    as (seen & Hnd & Hres & Hck & Hcid).
  fold repo in Hnd, Hres, Hck, Hcid. cbn [fst snd] in *.
  split; [exact Hnd|]. split.
  - intros r Hr. destruct (Hres r Hr) as (_ & Hne & Hsz & Hc).
    split; [exact Hne|]. split; [exact Hsz|].
    destruct (dict_get_elem_of _ _ Hc) as (c & Hget & Hin).
    exists c. split; [exact Hget|]. by apply Hcid.
  - unfold InMemoryCustomerRepository.find_all, dict_values.
    cbn [InMemoryCustomerRepository.customers customers_repo].
    unfold get_customers.
    replace (Customer.id <$> (_customers repo).*2) with (_customers repo).*1;
      [exact Hck|].
    rewrite <- list_fmap_compose. apply list_fmap_ext.
    intros i [k c] Hi. apply list_elem_of_lookup_2 in Hi.
    cbn. symmetry. by apply Hcid.
Qed.

Section LoadTwice.
Variable strip : string -> string.
Variable strptime : string -> string -> res datetime.
Variable py_int : string -> res Z.

Local Abbreviation lrow := (load_row strip strptime py_int).
Local Abbreviation lrows := (load_rows strip strptime py_int).
Local Abbreviation effect := (row_effect strip strptime py_int).

(** A turn of the loop is the row's own effect applied to the repository. *)
Lemma load_row_effect (row : CsvRow.t) (repo : CsvVisitRepository)
    (seen : gset string) :
  lrow row (repo, seen)
  = match effect row seen with
    | (Some e, seen', x) => ((register repo e, seen'), x)
    | (None, seen', x) => ((repo, seen'), x)
    end.
Proof.
  unfold load_row, row_effect, register. cbn [fst snd].
  destruct (CsvRow.reservation_id row); [|reflexivity].
  destruct (_ || _); [reflexivity|].
  destruct (CsvRow.customer_id row), (CsvRow.name row), (CsvRow.email row),
           (CsvRow.phone row), (CsvRow.datetime row), (CsvRow.party_size row);
    try reflexivity.
  destruct (row_values _ _ _ _ _) as [[dt size]|]; reflexivity.
Qed.

Lemma register_keys (repo : CsvVisitRepository)
    (e : Reservation.t * Customer.t) (k : string) :
  k ∈ (_customers (register repo e)).*1 <->
  k ∈ (_customers repo).*1 \/ k = Customer.id e.2.
Proof.
  unfold register. cbn [_customers]. case_bool_decide as Hin.
  - split; [by left|]. by intros [Hk| ->].
  - rewrite dict_set_fresh by done. rewrite fmap_app, elem_of_app.
    cbn. rewrite list_elem_of_singleton. reflexivity.
Qed.

Lemma register_known (repo : CsvVisitRepository)
    (e : Reservation.t * Customer.t) :
  Customer.id e.2 ∈ (_customers repo).*1 ->
  register repo e
  = {| _reservations := _reservations repo ++ [e.1];
       _customers := _customers repo |}.
Proof. intros Hin. unfold register. by rewrite bool_decide_eq_true_2. Qed.

Lemma load_rows_keys_mono (rs : list CsvRow.t) (repo : CsvVisitRepository)
    (seen : gset string) (k : string) :
  k ∈ (_customers repo).*1 -> k ∈ (_customers (lrows rs (repo, seen)).1.1).*1.
Proof.
  revert repo seen. induction rs as [|row rs IH]; intros repo seen Hk; [done|].
  simpl. rewrite load_row_effect.
  destruct (effect row seen) as [[[e|] seen'] [x|]]; cbn [fst snd]; try done.
  - apply register_keys. by left.
  - apply IH. apply register_keys. by left.
  - by apply IH.
Qed.

(** Run on a repository that already knows every customer the rows bring,
    the loop appends the same reservations and leaves the customers alone. *)
Lemma load_rows_frame (rs : list CsvRow.t) (a b : CsvVisitRepository)
    (seen : gset string) :
  (forall k, k ∈ (_customers (lrows rs (a, seen)).1.1).*1 ->
             k ∈ (_customers b).*1) ->
  exists new,
    _reservations (lrows rs (a, seen)).1.1 = _reservations a ++ new /\
    lrows rs (b, seen)
    = (({| _reservations := _reservations b ++ new;
           _customers := _customers b |},
        (lrows rs (a, seen)).1.2), (lrows rs (a, seen)).2).
Proof.
  revert a b seen. induction rs as [|row rs IH]; intros a b seen Hsub.
  - exists []. simpl. rewrite !app_nil_r. split; [done|]. by destruct b.
  - simpl in *. rewrite !load_row_effect in *.
    destruct (effect row seen) as [[[e|] seen'] [x|]]; cbn [fst snd] in *.
    + exists [e.1]. split; [done|].
      rewrite register_known; [done|].
      apply Hsub, register_keys. by right.
    + assert (Hknown : Customer.id e.2 ∈ (_customers b).*1).
      { apply Hsub, load_rows_keys_mono, register_keys. by right. }
      rewrite (register_known b e Hknown).
      destruct (IH (register a e)
                  {| _reservations := _reservations b ++ [e.1];
                     _customers := _customers b |} seen' Hsub)
        as (new & Hnew & Hrun).
      exists (e.1 :: new). cbn [_reservations _customers] in *. split.
      * rewrite Hnew. unfold register. cbn [_reservations].
        by rewrite <- app_assoc.
      * rewrite Hrun. by rewrite <- app_assoc.
    + exists []. rewrite !app_nil_r. split; [done|]. by destruct b.
    + destruct (IH a b seen' Hsub) as (new & Hnew & Hrun). by exists new.
Qed.

End LoadTwice.

(** X13: duplicate detection is per call. When [load] on a new repository
    returns normally, calling [load] again on the same repository and file
    appends every reservation a second time and leaves the customers as they
    are. *)
Theorem load_twice_duplicates
    (strip : string -> string) (strptime : string -> string -> res datetime)
    (py_int : string -> res Z) (file : option csv_file)
    (repo : CsvVisitRepository) :
  load strip strptime py_int new_repository file = (repo, None) ->
  load strip strptime py_int repo file
  = ({| _reservations := _reservations repo ++ _reservations repo;
        _customers := _customers repo |}, None).
Proof.
  unfold load. destruct file as [f|]; [|discriminate].
  destruct (forallb _ _); [|discriminate].
  intros Hload.
  destruct (load_rows_frame strip strptime py_int (rows f) new_repository repo ∅)
    as (new & Hnew & Hrun).
  { intros k Hk. by injection Hload as <- _. }
  rewrite Hrun. cbn [fst snd].
  injection Hload as Hrepo He. rewrite He. rewrite Hrepo in Hnew.
  cbn [_reservations new_repository app] in Hnew. by rewrite Hnew.
Qed.

Lemma load_twice_duplicates_witness :
  let repo :=
    (load sample_strip sample_strptime sample_int new_repository
       (Some sample_file)).1 in
  load sample_strip sample_strptime sample_int repo (Some sample_file)
  = ({| _reservations := _reservations repo ++ _reservations repo;
        _customers := _customers repo |}, None).
Proof.
  intros repo.
  apply (load_twice_duplicates sample_strip sample_strptime sample_int).
  vm_compute. reflexivity.
Defined.

Section LoadOrder.
Variable strip : string -> string.
Variable strptime : string -> string -> res datetime.
Variable py_int : string -> res Z.

Local Abbreviation lrow := (load_row strip strptime py_int).
Local Abbreviation lrows := (load_rows strip strptime py_int).

Lemma load_rows_app (a b : list CsvRow.t) (st : CsvVisitRepository * gset string) :
  lrows (a ++ b) st
  = match lrows a st with
    | (st', None) => lrows b st'
    | (st', Some e) => (st', Some e)
    end.
Proof.
  revert st. induction a as [|row a IH]; intros st; simpl.
  - by destruct (lrows b st) as [st' [e|]].
  - destruct (lrow row st) as [st' [e|]]; [done|]. apply IH.
Qed.

(** Ids are only ever added to [seen_res_ids], and only those of the rows;
    a reservation added by the rows has an id not seen before them, carried
    by one of them. *)
Lemma load_row_new (row : CsvRow.t) (st : CsvVisitRepository * gset string) :
  (forall k, k ∈ st.2 -> k ∈ (lrow row st).1.2) /\
  (forall k, k ∈ (lrow row st).1.2 -> k ∈ st.2 \/ carries strip row k) /\
  (forall x, x ∈ _reservations (lrow row st).1.1 ->
     x ∈ _reservations st.1 \/
     (Reservation.id x ∉ st.2) /\ carries strip row (Reservation.id x)).
Proof.
  destruct (load_row_cases strip strptime py_int row st)
    as [[-> _]|[(raw & _ & _ & ->)|(raw & Hid & He & Hs & Hcases)]];
    cbn [fst snd]; [by auto | by auto |].
  assert (Hseen : forall k, k ∈ {[strip raw]} ∪ st.2 -> k ∈ st.2 \/ carries strip row k).
  { intros k Hk. apply elem_of_union in Hk as [Hk|Hk]; [|by left].
    apply elem_of_singleton in Hk. subst k. right. by exists raw. }
  destruct Hcases as [[-> _]|[[-> _]|Hacc]]; cbn [fst snd].
  - split; [intros k Hk; by apply elem_of_union_r|]. split; [done|]. auto.
  - split; [intros k Hk; by apply elem_of_union_r|]. split; [done|]. auto.
  - destruct Hacc as (cid_raw & name_raw & email_raw & phone_raw & dt_raw
                      & size_raw & dt & size & _ & _ & _ & _ & _ & _ & _ & ->).
    cbn [fst snd _reservations].
    split; [intros k Hk; by apply elem_of_union_r|]. split; [done|].
    intros x Hx. apply elem_of_app in Hx as [Hx|Hx]; [by left|].
    apply list_elem_of_singleton in Hx. subst x. right. cbn.
    split; [done|]. by exists raw.
Qed.

Lemma load_rows_new (rs : list CsvRow.t) (st : CsvVisitRepository * gset string) :
  (forall k, k ∈ st.2 -> k ∈ (lrows rs st).1.2) /\
  (forall k, k ∈ (lrows rs st).1.2 ->
     k ∈ st.2 \/ exists row, row ∈ rs /\ carries strip row k) /\
  (forall x, x ∈ _reservations (lrows rs st).1.1 ->
     x ∈ _reservations st.1 \/
     (Reservation.id x ∉ st.2) /\
     exists row, row ∈ rs /\ carries strip row (Reservation.id x)).
Proof.
  revert st. induction rs as [|row rs IH]; intros st; simpl.
  - split; [done|]. split; by left.
  - destruct (load_row_new row st) as (Hmono & Hseen & Hres).
    assert (Hlift : forall k, carries strip row k ->
              exists row', row' ∈ row :: rs /\ carries strip row' k).
    { intros k Hk. exists row. split; [by left | done]. }
    destruct (lrow row st) as [st' [e|]]; cbn [fst snd] in *.
    + split; [done|]. split.
      * intros k Hk. destruct (Hseen k Hk); auto.
      * intros x Hx. destruct (Hres x Hx) as [?|[? ?]]; auto.
    + destruct (IH st') as (Hmono' & Hseen' & Hres').
      split; [by auto|]. split.
      * intros k Hk. destruct (Hseen' k Hk) as [Hk'|(row' & Hin & Hc)].
        -- destruct (Hseen k Hk'); auto.
        -- right. exists row'. split; [by right | done].
      * intros x Hx. destruct (Hres' x Hx) as [Hx'|(Hn & row' & Hin & Hc)].
        -- destruct (Hres x Hx') as [?|[? ?]]; auto.
        -- right. split; [by auto|]. exists row'. split; [by right | done].
Qed.

End LoadOrder.

(** X14: the first row carrying a reservation id decides for that id, also
    when it is rejected. If the first row with a given non-empty id has a
    date or party size that does not parse (or a size <= 0), then after
    [load] no reservation has that id, whatever rows follow. *)
Theorem load_first_row_decides
    (strip : string -> string) (strptime : string -> string -> res datetime)
    (py_int : string -> res Z) (self : CsvVisitRepository)
    (fns : list string) (pre post : list CsvRow.t)
    (row : CsvRow.t) (raw : string) :
  CsvRow.reservation_id row = Some raw ->
  strip raw <> "" ->
  (forall row', row' ∈ pre -> ~ carries strip row' (strip raw)) ->
  rejected strip strptime py_int row ->
  (forall x, x ∈ _reservations self -> Reservation.id x <> strip raw) ->
  forall x,
    x ∈ _reservations
          (load strip strptime py_int self
             (Some {| fieldnames := fns; rows := pre ++ row :: post |})).1 ->
    Reservation.id x <> strip raw.
Proof.
  intros Hid He Hpre Hrej Hself x. unfold load. cbn [fieldnames rows].
  destruct (forallb _ _); cbn [fst]; [|by apply Hself].
  rewrite load_rows_app.
  destruct (load_rows_new strip strptime py_int pre (self, ∅))
    as (_ & Hseen1 & Hres1).
  destruct (load_rows strip strptime py_int pre (self, ∅))
    as [[repo1 seen1] e1] eqn:E1. cbn [fst snd] in *.
  assert (Hold : forall y, y ∈ _reservations repo1 -> Reservation.id y <> strip raw).
  { intros y Hy Heq. destruct (Hres1 y Hy) as [Hy'|(_ & row' & Hin & Hc)].
    - by apply (Hself y).
    - apply (Hpre row' Hin). by rewrite <- Heq. }
  assert (Hfresh : strip raw ∉ seen1).
  { intros Hin. destruct (Hseen1 _ Hin) as [Hin'|(row' & Hr & Hc)].
    - by apply not_elem_of_empty in Hin'.
    - by apply (Hpre row' Hr). }
  destruct e1 as [e|]; cbn [fst snd]; [by apply Hold|].
  simpl.
  destruct (load_row_cases strip strptime py_int row (repo1, seen1))
    as [[_ Hn]|[(raw' & Hid' & Hskip & _)|(raw' & Hid' & _ & _ & Hcases)]].
  - congruence.
  - rewrite Hid in Hid'. injection Hid' as <-. cbn [snd] in Hskip.
    by destruct Hskip.
  - rewrite Hid in Hid'. injection Hid' as <-. cbn [fst snd] in Hcases.
    destruct Hcases as [[-> _]|[[-> _]|Hacc]]; cbn [fst snd].
    + by apply Hold.
    + destruct (load_rows_new strip strptime py_int post
                  (repo1, {[strip raw]} ∪ seen1)) as (_ & _ & Hres2).
      cbn [fst snd] in Hres2. intros Hx Heq.
      destruct (Hres2 x Hx) as [Hx'|(Hn & _)]; [by apply (Hold x)|].
      apply Hn. rewrite Heq. apply elem_of_union_l. by apply elem_of_singleton.
    + destruct Hacc as (cid_raw & name_raw & email_raw & phone_raw & dt_raw
                        & size_raw & dt & size & _ & _ & _ & _ & Hdt & Hsz & Hv & _).
      rewrite (Hrej dt_raw size_raw Hdt Hsz) in Hv. discriminate.
Qed.

Lemma load_first_row_decides_witness :
  Forall (fun x => Reservation.id x <> "R2")
    (_reservations
       (load sample_strip sample_strptime sample_int new_repository
          (Some sample_file)).1).
Proof.
  apply Forall_forall.
  apply (load_first_row_decides sample_strip sample_strptime sample_int
           new_repository expected_columns [row_r1] [row_r2_good]
           row_r2_bad "R2").
  - reflexivity.
  - discriminate.
  - intros row' Hin (raw' & Hid & Heq).
    apply list_elem_of_singleton in Hin. subst row'.
    injection Hid as <-. discriminate.
  - intros dt_raw size_raw [= <-] [= <-]. vm_compute. reflexivity.
  - intros x Hx. by apply elem_of_nil in Hx.
Defined.

(** X15: a row that is cut short ends the load with AttributeError and
    leaves the rows before it loaded. If the rows before a row load without
    an exception, and the row has no reservation id field, or has an id that
    is non-empty and new but lacks one of the other six fields, then [load]
    on the whole file raises AttributeError and the repository holds exactly
    what the rows before that row gave; the rows after it are not read. *)
Theorem load_short_row_aborts
    (strip : string -> string) (strptime : string -> string -> res datetime)
    (py_int : string -> res Z) (self repo1 : CsvVisitRepository)
    (fns : list string) (pre post : list CsvRow.t) (row : CsvRow.t) :
  load strip strptime py_int self (Some {| fieldnames := fns; rows := pre |})
  = (repo1, None) ->
  forallb (fun c => bool_decide (c ∈ fns)) expected_columns = true ->
  (CsvRow.reservation_id row = None \/
   exists raw,
     CsvRow.reservation_id row = Some raw /\ strip raw <> "" /\
     (forall row', row' ∈ pre -> ~ carries strip row' (strip raw)) /\
     (CsvRow.customer_id row = None \/ CsvRow.name row = None \/
      CsvRow.email row = None \/ CsvRow.phone row = None \/
      CsvRow.datetime row = None \/ CsvRow.party_size row = None)) ->
  load strip strptime py_int self
    (Some {| fieldnames := fns; rows := pre ++ row :: post |})
  = (repo1, Some AttributeError).
Proof.
  unfold load. cbn [fieldnames rows]. intros Hload Hhdr Hshort.
  rewrite Hhdr in *. rewrite load_rows_app.
  destruct (load_rows_new strip strptime py_int pre (self, ∅))
    as (_ & Hseen1 & _).
  destruct (load_rows strip strptime py_int pre (self, ∅))
    as [[repo' seen1] e1] eqn:E1. cbn [fst snd] in *.
  injection Hload as -> ->. simpl.
  destruct Hshort as [Hn|(raw & Hid & He & Hpre & Hcut)].
  - unfold load_row. by rewrite Hn.
  - assert (Hfresh : strip raw ∉ seen1).
    { intros Hin. destruct (Hseen1 _ Hin) as [Hin'|(row' & Hr & Hc)].
      - by apply not_elem_of_empty in Hin'.
      - by apply (Hpre row' Hr). }
    destruct (load_row_cases strip strptime py_int row (repo1, seen1))
      as [[_ Hn]|[(raw' & Hid' & Hskip & _)|(raw' & Hid' & _ & _ & Hcases)]].
    + congruence.
    + rewrite Hid in Hid'. injection Hid' as <-. cbn [snd] in Hskip.
      by destruct Hskip.
    + rewrite Hid in Hid'. injection Hid' as <-. cbn [fst snd] in Hcases.
      destruct Hcases as [[-> _]|[[Hrow Hrej]|Hacc]]; cbn [fst snd].
      * reflexivity.
      * exfalso. revert Hrow. unfold load_row. rewrite Hid.
        rewrite (bool_decide_eq_false_2 _ He), (bool_decide_eq_false_2 _ Hfresh).
        cbn [orb fst snd].
        destruct (CsvRow.customer_id row), (CsvRow.name row), (CsvRow.email row),
          (CsvRow.phone row), (CsvRow.datetime row), (CsvRow.party_size row);
          try discriminate;
          destruct Hcut as [?|[?|[?|[?|[?|?]]]]]; discriminate.
      * destruct Hacc as (cid_raw & name_raw & email_raw & phone_raw & dt_raw
                          & size_raw & dt & size & H1 & H2 & H3 & H4 & H5 & H6 & _).
        exfalso. destruct Hcut as [?|[?|[?|[?|[?|?]]]]]; congruence.
Qed.

Lemma load_short_row_aborts_witness :
  load sample_strip sample_strptime sample_int new_repository
    (Some {| fieldnames := expected_columns;
             rows := [row_r1] ++ row_r3_short :: [row_r2_good] |})
  = ({| _reservations :=
          [Reservation.Build_t "R1" "C001"
             (Clock.combine (Date 2025 3 1) Clock.time_min) 2];
        _customers :=
          [("C001", Customer.Build_t "C001" "Ana" "a@example.com" "999")] |},
     Some AttributeError).
Proof.
  apply (load_short_row_aborts sample_strip sample_strptime sample_int).
  - vm_compute. reflexivity.
  - vm_compute. reflexivity.
  - right. exists "R3". split; [reflexivity|]. split; [discriminate|]. split.
    + intros row' Hin (raw' & Hid & Heq).
      apply list_elem_of_singleton in Hin. subst row'.
      injection Hid as <-. discriminate.
    + right. by left.
Defined.

(** ** [visits_by_month] at its edges *)

Lemma first_of_month_valid (i : Z) :
  12 <= i <= last_month_index ->
  valid_date (first_of_month i) /\
  month_index (year (first_of_month i)) (month (first_of_month i)) = i.
Proof.
  unfold last_month_index, month_index, MAXYEAR, first_of_month. intros Hi.
  cbn [year month].
  assert (Hm : 1 <= i mod 12 + 1 <= 12) by (Z.div_mod_to_equations; lia).
  pose proof (days_in_month_bounds (i / 12) (i mod 12 + 1) Hm).
  split.
  - apply valid_date_iff. cbn [year month day].
    split; [Z.div_mod_to_equations; lia|]. split; [exact Hm | lia].
  - Z.div_mod_to_equations; lia.
Qed.



(** A timestamp without microseconds is before the last whole second of a
    day exactly when it is before the end of that day. *)
Lemma dt_le_whole_second (x : datetime) (d : date) :
  microsecond (time_of x) = 0 ->
  dt_le x (DateTime d (Time 23 59 59 0)) = dt_le x (DateTime d time_max).
Proof.
  intros Hus. unfold dt_le, fields, time_max.
  cbn [date_of time_of hour minute second microsecond lex_compare].
  rewrite Hus.
  destruct (year (date_of x) ?= year d); try reflexivity.
  destruct (month (date_of x) ?= month d); try reflexivity.
  destruct (day (date_of x) ?= day d); try reflexivity.
  destruct (hour (time_of x) ?= 23); try reflexivity.
  destruct (minute (time_of x) ?= 59); try reflexivity.
  destruct (second (time_of x) ?= 59); reflexivity.
Qed.

Lemma filter_ext_elem {A : Type} (P Q : A -> Prop)
    `{!forall x, Decision (P x)} `{!forall x, Decision (Q x)} (l : list A) :
  (forall x, x ∈ l -> P x <-> Q x) -> filter P l = filter Q l.
Proof.
  induction l as [|x l IH]; intros Hext; [reflexivity|].
  rewrite !filter_cons.
  rewrite IH by (intros y Hy; apply Hext; by right).
  pose proof (Hext x ltac:(by left)) as Hx.
  destruct (decide (P x)), (decide (Q x)); tauto.
Qed.

(** X17: for events whose timestamps carry no microseconds, as the three
    formats of [parse_iso] give them, the window of [visits_by_month], which
    ends at 23:59:59, holds the same events as the end-of-day window of
    [classify] and [ranking_top_customers]: inside the range of [date] the
    monthly values add up to [count_visits] from the first day of the first
    month at midnight to [as_of] at [datetime.max.time()], without
    deduplication. *)
Theorem visits_by_month_sum_whole_seconds {R : Type} `{VisitRepository R}
    (self : R) (cid : string) (months : Z) (as_of : date) :
  let last := month_index (year as_of) (month as_of) in
  let first := last - (months - 1) in
  valid_date as_of -> 1 <= months -> 12 <= first -> last < last_month_index ->
  Forall (fun r => valid_datetime (Reservation.dt r) /\
                   microsecond (time_of (Reservation.dt r)) = 0)
         (get_reservations self) ->
  exists out,
    visits_by_month self cid months as_of = Ok out /\
    sum_values out
    = count_visits self cid (combine (first_of_month first) time_min)
        (combine as_of time_max) false.
Proof.
  intros last first Hd Hm Hlo Hhi Hall.
  eexists. split; [by apply visits_by_month_rows|].
  fold last first.
  rewrite sum_values_rows.
  rewrite sum_month_count; [| apply month_keys_NoDup |].
  - rewrite count_visits_raw. f_equal. f_equal. unfold combine.
    apply filter_ext_elem. intros r Hr.
    apply (proj1 (Forall_forall _ _) Hall) in Hr as [_ Hus].
    unfold in_range. by rewrite (dt_le_whole_second _ _ Hus).
  - intros r Hr Hin. apply in_range_month_in_keys with (cid := cid);
      [exact Hd | exact Hm | | exact Hin].
    by apply (proj1 (Forall_forall _ _) Hall).
Qed.

Lemma visits_by_month_sum_whole_seconds_witness :
  exists out,
    visits_by_month sample_repo "C001" 3 (Date 2025 3 15) = Ok out /\
    sum_values out
    = count_visits sample_repo "C001" (combine (Date 2025 1 1) time_min)
        (combine (Date 2025 3 15) time_max) false.
Proof.
  apply (visits_by_month_sum_whole_seconds sample_repo "C001" 3 (Date 2025 3 15));
    [reflexivity | lia | vm_compute; discriminate | reflexivity |].
  repeat (constructor;
          [split; [split; [reflexivity | unfold valid_time; simpl; lia]
                  | reflexivity]|]).
  constructor.
Defined.

(** ** [ensure_csv_filename] *)

Section FilenameFacts.
Variable strip : string -> string.
Variable lower : string -> string.

Local Abbreviation chars := String.list_ascii_of_string.
Local Abbreviation keep := (fun ch => negb (bool_decide (ch ∈ forbidden))).
Local Abbreviation unspace :=
  (fun ch => if Ascii.eqb ch space then underscore else ch).

Lemma sanitised_chars (s : string) (ch : Ascii.ascii) :
  ch ∈ chars (string_filter keep (string_map unspace s)) ->
  (ch ∉ forbidden) /\ ch <> space.
Proof.
  induction s as [|a s IH]; cbn [string_map string_filter chars].
  - intros Hin. by apply elem_of_nil in Hin.
  - destruct (negb (bool_decide (unspace a ∈ forbidden))) eqn:Ek; [|exact IH].
    cbn [String.list_ascii_of_string]. intros Hin.
    apply elem_of_cons in Hin as [->|Hin]; [|by apply IH].
    apply negb_true_iff, bool_decide_eq_false in Ek. split; [exact Ek|].
    destruct (Ascii.eqb_spec a space) as [_|Hne]; [by compute | exact Hne].
Qed.

Lemma chars_append (a b : string) (ch : Ascii.ascii) :
  ch ∈ chars (String.append a b) -> ch ∈ chars a \/ ch ∈ chars b.
Proof.
  induction a as [|x a IH]; cbn [String.append String.list_ascii_of_string].
  - by right.
  - intros Hin. apply elem_of_cons in Hin as [->|Hin]; [left; by left|].
    destruct (IH Hin); [left; by right | by right].
Qed.

Lemma ends_with_append (suffix n : string) :
  ends_with suffix (String.append n suffix) = true.
Proof.
  induction n as [|x n IH].
  - change (String.append "" suffix) with suffix.
    destruct suffix; cbn [ends_with]; by rewrite String.eqb_refl.
  - change (String.append (String x n) suffix)
      with (String x (String.append n suffix)).
    cbn [ends_with]. rewrite IH. apply orb_true_r.
Qed.

Lemma only_forbidden_sanitised (s : string) :
  (forall ch, ch ∈ chars s -> ch ∈ forbidden) ->
  string_filter keep (string_map unspace s) = "".
Proof.
  induction s as [|a s IH]; intros Hall; [reflexivity|].
  cbn [string_map string_filter].
  assert (Ha : a ∈ forbidden) by (apply Hall; by left).
  assert (Hsp : Ascii.eqb a space = false).
  { apply Ascii.eqb_neq. intros ->. revert Ha. by compute_done. }
  rewrite Hsp, (bool_decide_eq_true_2 _ Ha). cbn [negb].
  apply IH. intros ch Hch. apply Hall. by right.
Qed.

End FilenameFacts.

(** X18: whatever name and default are given, the file name returned by
    [ensure_csv_filename] holds none of the characters
    backslash, slash, colon, asterisk, question mark, double quote,
    less-than, greater-than, bar, and no space, and it ends in [.csv],
    literally when the extension was added and up to letter case
    otherwise. *)
Theorem ensure_csv_filename_safe (strip lower : string -> string)
    (name default : string) :
  let r := ensure_csv_filename strip lower name default in
  (forall ch, ch ∈ String.list_ascii_of_string r ->
     (ch ∉ forbidden) /\ ch <> space) /\
  (ends_with ".csv" r = true \/ ends_with ".csv" (lower r) = true).
Proof.
  unfold ensure_csv_filename.
  set (n := string_filter _ (string_map _ _)).
  assert (Hn : forall ch, ch ∈ String.list_ascii_of_string n ->
                 (ch ∉ forbidden) /\ ch <> space).
  { intros ch. apply sanitised_chars. }
  destruct (ends_with ".csv" (lower n)) eqn:E; cbn [negb].
  - split; [exact Hn | by right].
  - split; [|left; apply ends_with_append].
    intros ch Hin. apply chars_append in Hin as [Hin|Hin]; [by apply Hn|].
    cbn in Hin.
    repeat (apply elem_of_cons in Hin as [->|Hin]; [by compute_done|]).
    by apply elem_of_nil in Hin.
Qed.

(** X19: the default name is used for an empty name only, not for a name
    that sanitising empties. For a non-empty name that, once stripped of
    blanks and quotes, is non-empty and made of forbidden characters only,
    [ensure_csv_filename] returns the bare extension [.csv]. *)
Theorem ensure_csv_filename_bare_extension (strip lower : string -> string)
    (name default : string) :
  let n := strip_char (Ascii.ascii_of_nat 39)
             (strip_char (Ascii.ascii_of_nat 34) (strip name)) in
  name <> "" -> n <> "" ->
  (forall ch, ch ∈ String.list_ascii_of_string n -> ch ∈ forbidden) ->
  lower "" = "" ->
  ensure_csv_filename strip lower name default = ".csv".
Proof.
  intros n Hname Hn Hall Hlow. unfold ensure_csv_filename.
  rewrite (proj2 (String.eqb_neq name "") Hname). fold n.
  rewrite (proj2 (String.eqb_neq n "") Hn).
  rewrite only_forbidden_sanitised by exact Hall.
  rewrite Hlow. reflexivity.
Qed.

Lemma ensure_csv_filename_bare_extension_witness :
  ensure_csv_filename sample_strip ascii_lower "a/b" "ranking" = "ab.csv" /\
  ensure_csv_filename sample_strip ascii_lower "??" "ranking" = ".csv".
Proof.
  split; [reflexivity|].
  apply (ensure_csv_filename_bare_extension sample_strip ascii_lower "??" "ranking").
  - discriminate.
  - discriminate.
  - intros ch Hin. cbn in Hin.
    repeat (apply elem_of_cons in Hin as [->|Hin]; [by compute_done|]).
    by apply elem_of_nil in Hin.
  - reflexivity.
Defined.

(** ** The rule editor *)

Lemma configure_loop_ok (turns : list editor_turn) (cfg cfg' : Config.t)
    (work : list LoyaltyRule.t) :
  config_ok cfg -> configure_loop turns cfg work = Some cfg' -> config_ok cfg'.
Proof.
  intros Hok. revert work.
  induction turns as [|turn turns IH]; intros work; [discriminate|].
  destruct turn as [[r|]|idx wizard|idx| | |]; cbn [configure_loop];
    try (by apply IH).
  - destruct work as [|r0 work0]; [by apply IH|].
    destruct idx as [i|]; [|by apply IH].
    destruct (negb (index_ok i (r0 :: work0))); [by apply IH|].
    destruct ((r0 :: work0) !! Z.to_nat (i - 1)) as [existing|]; [|by apply IH].
    destruct (wizard existing); by apply IH.
  - destruct work as [|r0 work0]; [by apply IH|].
    destruct idx as [i|]; [|by apply IH].
    destruct (negb (index_ok i (r0 :: work0))); by apply IH.
  - destruct work as [|r0 work0]; [by apply IH|].
    intros [= <-]. split; [|apply set_rules_sorted].
    intros Hnil.
    pose proof (set_rules_perm cfg (r0 :: work0)) as Hp.
    rewrite Hnil in Hp. by apply Permutation_nil_r in Hp.
  - by intros [= <-].
Qed.

Lemma config_ok_init : config_ok Config.init.
Proof.
  split; [discriminate|]. unfold Config.get_rules, Config.init.
  cbn [Config.rules].
  apply Sorted_cons; [apply Sorted_cons; constructor|].
  apply HdRel_cons. cbn [LoyaltyRule.min_visits]. lia.
Qed.

(** X20: the rule editor keeps the configuration well formed. Whatever the
    user answers, if [configure_rules] starts from a configuration holding
    at least one rule in descending order of [min_visits], as the initial
    one does, and comes to an end, the configuration it leaves holds at
    least one rule in descending order of [min_visits]: saving is refused
    while the working list is empty. *)
Theorem configure_rules_keeps_config_ok (cfg cfg' : Config.t)
    (turns : list editor_turn) :
  config_ok cfg -> configure_rules cfg turns = Some cfg' -> config_ok cfg'.
Proof. unfold configure_rules. apply configure_loop_ok. Qed.

Lemma configure_rules_keeps_config_ok_witness :
  configure_rules Config.init sample_turns
  = Some {| Config.rules := [rule_vip2] |} /\
  config_ok {| Config.rules := [rule_vip2] |}.
Proof.
  assert (Hrun : configure_rules Config.init sample_turns
                 = Some {| Config.rules := [rule_vip2] |})
    by (vm_compute; reflexivity).
  split; [exact Hrun|].
  exact (configure_rules_keeps_config_ok Config.init _ sample_turns
           config_ok_init Hrun).
Defined.

Lemma configure_loop_cancel (turns rest : list editor_turn) (cfg : Config.t)
    (work : list LoyaltyRule.t) :
  TurnSave ∉ turns ->
  configure_loop (turns ++ TurnCancel :: rest) cfg work = Some cfg.
Proof.
  revert work. induction turns as [|turn turns IH]; intros work Hns;
    [reflexivity|].
  assert (Hns' : TurnSave ∉ turns) by (intros Hin; apply Hns; by right).
  destruct turn as [[r|]|idx wizard|idx| | |];
    cbn [app configure_loop]; try (by apply IH).
  - destruct work as [|r0 work0]; [by apply IH|].
    destruct idx as [i|]; [|by apply IH].
    destruct (negb (index_ok i (r0 :: work0))); [by apply IH|].
    destruct ((r0 :: work0) !! Z.to_nat (i - 1)) as [existing|]; [|by apply IH].
    destruct (wizard existing); by apply IH.
  - destruct work as [|r0 work0]; [by apply IH|].
    destruct idx as [i|]; [|by apply IH].
    destruct (negb (index_ok i (r0 :: work0))); by apply IH.
  - exfalso. apply Hns. by left.
  - reflexivity.
Qed.

(** X21: the editor works on a copy. If the user never chooses to save
    and then cancels, [configure_rules] leaves the configuration exactly as
    it was, whatever was added, edited or deleted before; what would be
    answered after the cancel is not read. *)
Theorem configure_rules_cancel_discards (cfg : Config.t)
    (turns rest : list editor_turn) :
  TurnSave ∉ turns ->
  configure_rules cfg (turns ++ TurnCancel :: rest) = Some cfg.
Proof. unfold configure_rules. apply configure_loop_cancel. Qed.

Lemma configure_rules_cancel_discards_witness :
  configure_rules Config.init
    ([TurnNew (Some rule_gold2); TurnDelete (Some 1)] ++ TurnCancel :: [TurnSave])
  = Some Config.init.
Proof.
  apply (configure_rules_cancel_discards Config.init).
  intros Hin.
  repeat (apply elem_of_cons in Hin as [Hin|Hin]; [discriminate|]).
  by apply elem_of_nil in Hin.
Defined.

(** ** Rules of other windows *)

Lemma apply_rules_filter (window count : Z) (rs : list LoyaltyRule.t) :
  VisitsInWindowStrategy.apply_rules window count rs
  = VisitsInWindowStrategy.apply_rules window count
      (filter (fun r => LoyaltyRule.window_months r = window) rs).
Proof.
  induction rs as [|r rs IH]; [reflexivity|].
  rewrite filter_cons. cbn [VisitsInWindowStrategy.apply_rules].
  destruct (Z.eqb_spec (LoyaltyRule.window_months r) window) as [Heq|Hne];
    cbn [negb].
  - rewrite decide_True by exact Heq.
    cbn [VisitsInWindowStrategy.apply_rules].
    rewrite (proj2 (Z.eqb_eq _ _) Heq). cbn [negb]. by rewrite IH.
  - rewrite decide_False by exact Hne. exact IH.
Qed.

(** X22: rules whose window differs from the classifier's are dead. For
    every classifier, customer, date and repository, [classify] gives the
    same result, or raises the same exception, when the rules whose
    [window_months] is not the classifier's are removed; so with the engine
    of [ensure_engine], whose window is 3 months, only the stored rules with
    [window_months = 3] bear on the tier. *)
Theorem classify_ignores_other_windows {R : Type} `{VisitRepository R}
    (self : VisitsInWindowStrategy.t) (cfg : Config.t)
    (repo : CsvVisitRepository) (customers_repo : InMemoryCustomerRepository.t)
    (customer : Customer.t) (as_of : date) (visits : R) :
  VisitsInWindowStrategy.classify self customer as_of visits
  = VisitsInWindowStrategy.classify
      (VisitsInWindowStrategy.Build_t
         (filter (fun r => LoyaltyRule.window_months r
                           = VisitsInWindowStrategy.window_months self)
                 (VisitsInWindowStrategy.rules_desc self))
         (VisitsInWindowStrategy.window_months self)
         (VisitsInWindowStrategy.unique_per_day self))
      customer as_of visits /\
  LoyaltyEngine.classify (ensure_engine cfg repo customers_repo) customer as_of
  = VisitsInWindowStrategy.classify
      (VisitsInWindowStrategy.Build_t
         (filter (fun r => LoyaltyRule.window_months r = 3) (Config.get_rules cfg))
         3 true)
      customer as_of repo.
Proof.
  split.
  - unfold VisitsInWindowStrategy.classify.
    cbn [VisitsInWindowStrategy.window_months VisitsInWindowStrategy.rules_desc
         VisitsInWindowStrategy.unique_per_day].
    destruct (months_ago as_of (VisitsInWindowStrategy.window_months self));
      cbn [mbind res_bind]; [|reflexivity].
    f_equal. apply apply_rules_filter.
  - unfold LoyaltyEngine.classify, ensure_engine, strategy_classify,
      visits_in_window_strategy, VisitsInWindowStrategy.classify.
    cbn [LoyaltyEngine.strategy LoyaltyEngine.repo
         VisitsInWindowStrategy.window_months VisitsInWindowStrategy.rules_desc
         VisitsInWindowStrategy.unique_per_day].
    destruct (months_ago as_of 3); cbn [mbind res_bind]; [|reflexivity].
    f_equal. apply apply_rules_filter.
Qed.
